(** * html-to-figma style helpers: a shallow embedding of
      [src/lib/html-to-figma/helpers/styles.ts]

    The file follows the source top-down: the JavaScript primitives the
    helpers call (string methods, the border regular expression, [parseFloat],
    [Math.round]), the layer-node records, the document whose inline styles the
    constraint pass mutates, then the six exported helpers, and last the
    properties proved about them. *)

From Stdlib Require Import ZArith Floats Ascii String.
From Stdlib Require Uint63.
From stdpp Require Import gmap strings list.

Local Open Scope string_scope.

(** ** JavaScript strings

    A string is a sequence of code units; the embedding keeps the code units
    below 256, which covers every character the helpers test for. *)

Definition codeOf (c : ascii) : nat := nat_of_ascii c.

Definition inRange (lo hi : nat) (c : ascii) : bool :=
  (lo <=? codeOf c)%nat && (codeOf c <=? hi)%nat.

(** [\d] *)
Definition isDigit (c : ascii) : bool := inRange 48 57 c.

(** [[\d\.]] *)
Definition isDigitOrDot (c : ascii) : bool := isDigit c || (codeOf c =? 46)%nat.

(** [\w]: letters, digits and the underscore. *)
Definition isWordChar (c : ascii) : bool :=
  inRange 97 122 c || inRange 65 90 c || isDigit c || (codeOf c =? 95)%nat.

(** Line terminators, the characters [.] refuses: LF and CR. *)
Definition isLineTerminator (c : ascii) : bool :=
  (codeOf c =? 10)%nat || (codeOf c =? 13)%nat.

(** [\s], also what [trim] strips: TAB, LF, VT, FF, CR, space and NBSP. *)
Definition isWhiteSpace (c : ascii) : bool :=
  inRange 9 13 c || (codeOf c =? 32)%nat || (codeOf c =? 160)%nat.

(** A string in a boolean position: only the empty string is falsy. *)
Definition truthy (s : string) : bool :=
  match s with EmptyString => false | String _ _ => true end.

(** A property read that may yield [undefined] ([None]) in a boolean position. *)
Definition truthyProp (o : option string) : bool :=
  match o with Some s => truthy s | None => false end.

(** [s.startsWith(p)] *)
Fixpoint startsWith (s p : string) : bool :=
  match p, s with
  | EmptyString, _ => true
  | String a p', String c s' => if Ascii.eqb a c then startsWith s' p' else false
  | String _ _, EmptyString => false
  end.

(** [s.includes(sub)] *)
Fixpoint includes (s sub : string) : bool :=
  startsWith s sub ||
  match s with
  | EmptyString => false
  | String _ s' => includes s' sub
  end.

(** [s.endsWith(suffix)] *)
Fixpoint endsWith (s suffix : string) : bool :=
  String.eqb s suffix ||
  match s with
  | EmptyString => false
  | String _ s' => endsWith s' suffix
  end.

Fixpoint trimStart (s : string) : string :=
  match s with
  | String c s' => if isWhiteSpace c then trimStart s' else s
  | EmptyString => EmptyString
  end.

Fixpoint trimEnd (s : string) : string :=
  match s with
  | EmptyString => EmptyString
  | String c s' =>
      match trimEnd s' with
      | EmptyString => if isWhiteSpace c then EmptyString else String c EmptyString
      | t => String c t
      end
  end.

(** [s.trim()] *)
Definition trim (s : string) : string := trimEnd (trimStart s).

(** [c.toUpperCase()] on one code unit of the ASCII range. *)
Definition toUpperCase (c : ascii) : ascii :=
  if inRange 97 122 c then ascii_of_nat (codeOf c - 32) else c.

(** [const capitalize = (str) => str[0].toUpperCase() + str.substring(1)];
    its only callers pass one of the four side names, never the empty string
    (on which the source would raise). *)
Definition capitalize (str : string) : string :=
  match str with
  | String c rest => String (toUpperCase c) rest
  | EmptyString => EmptyString
  end.

(** The longest prefix whose characters satisfy [p], and what follows it. *)
Fixpoint span (p : ascii -> bool) (s : string) : string * string :=
  match s with
  | String c s' =>
      if p c then let '(pre, rest) := span p s' in (String c pre, rest)
      else (EmptyString, s)
  | EmptyString => (EmptyString, EmptyString)
  end.

Fixpoint anyChar (p : ascii -> bool) (s : string) : bool :=
  match s with
  | String c s' => p c || anyChar p s'
  | EmptyString => false
  end.

(** [str.match(re)] for the border pattern [re], which reads
    [^([\d\.]+)px\s*(\w+)\s*( .* )$] (group 3 is [.] repeated, written here
    with spaces); the result is the three capture groups of a match, and
    [None] for [null].

    The greedy reading below is the only one backtracking can reach: what
    follows each quantified class cannot start with a character of that class
    ([p] is not in [[\d\.]], [\w] and [\s] are disjoint), so a shorter
    repetition never lets the next element match; and every way of matching
    makes group 3 run to the end of the input, so it succeeds exactly when
    what remains after the second run of white space has no line terminator.
    Lemmas [matchBorder_sound] and [matchBorder_complete] below relate the
    function to the pattern read as a description of strings. *)
Definition matchBorder (str : string) : option (string * string * string) :=
  let '(width, afterWidth) := span isDigitOrDot str in
  if negb (truthy width) then None
  else
    match afterWidth with
    | String "p" (String "x" afterPx) =>
        let '(_, atType) := span isWhiteSpace afterPx in
        let '(type, afterType) := span isWordChar atType in
        if negb (truthy type) then None
        else
          let '(_, color) := span isWhiteSpace afterType in
          if anyChar isLineTerminator color then None
          else Some (width, type, color)
    | _ => None
    end.

(** ** JavaScript numbers

    Numbers are IEEE 754 binary64 values: the kernel's primitive floats. *)

Local Open Scope float_scope.

(** A number in a boolean position: [0], [-0] and [NaN] are falsy. *)
Definition truthyNumber (x : float) : bool := negb (PrimFloat.is_zero x || PrimFloat.is_nan x).

(** The binary64 value nearest to [num / den] (ties to even), for positive
    [num] and [den]: the quotient is cut to 53 bits at the binary exponent [e]
    (not below the subnormal exponent -1074), then rounded on the remainder. *)
Definition nearestRatio (num den : Z) : float :=
  let scaled (e : Z) : Z * Z :=
    if (0 <=? e)%Z then (num, den * 2 ^ e)%Z else (num * 2 ^ (- e), den)%Z in
  let quot (e : Z) : Z := let '(n, d) := scaled e in (n / d)%Z in
  let e0 := (Z.log2 num - Z.log2 den - 52)%Z in
  let e1 :=
    if (2 ^ 53 <=? quot e0)%Z then (e0 + 1)%Z
    else if (quot e0 <? 2 ^ 52)%Z then (e0 - 1)%Z
    else e0 in
  let e := Z.max e1 (-1074) in
  let '(n, d) := scaled e in
  let q := (n / d)%Z in
  let r := (n mod d)%Z in
  let q' :=
    if (d <? 2 * r)%Z then (q + 1)%Z
    else if (2 * r =? d)%Z && Z.odd q then (q + 1)%Z
    else q in
  match q' with
  | Zpos m => SF2Prim (S754_finite false m e)
  | _ => 0
  end.

(** The value of a decimal literal: [digits * 10 ^ exp10], rounded once. *)
Definition decimalValue (digits exp10 : Z) : float :=
  if (digits =? 0)%Z then 0
  else if (0 <=? exp10)%Z then nearestRatio (digits * 10 ^ exp10) 1
  else nearestRatio digits (10 ^ (- exp10)).

Definition digitValue (c : ascii) : Z := Z.of_nat (codeOf c - 48).

(** The number a string of decimal digits spells. *)
Definition digitsValue (s : string) : Z :=
  (fix go (acc : Z) (s : string) : Z :=
     match s with
     | String c s' => go (10 * acc + digitValue c)%Z s'
     | EmptyString => acc
     end) 0%Z s.

Definition stringLength (s : string) : Z := Z.of_nat (String.length s).

(** [parseFloat(str)]: leading white space is skipped, then the longest prefix
    that is a decimal literal (sign, [Infinity], digits with an optional
    fraction, an optional exponent part) is converted; [NaN] when there is
    none. *)
Definition parseFloat (str : string) : float :=
  let s0 := trimStart str in
  let '(negative, s1) :=
    match s0 with
    | String "-" t => (true, t)
    | String "+" t => (false, t)
    | _ => (false, s0)
    end in
  let signed (x : float) : float := if negative then - x else x in
  if startsWith s1 "Infinity" then signed infinity
  else
    let '(intPart, s2) := span isDigit s1 in
    let '(fracPart, s3) :=
      match s2 with
      | String "." t => span isDigit t
      | _ => (EmptyString, s2)
      end in
    if negb (truthy intPart || truthy fracPart) then nan
    else
      let exponent : Z :=
        match s3 with
        | String c t =>
            if (codeOf c =? 101)%nat || (codeOf c =? 69)%nat then
              let '(expNegative, u) :=
                match t with
                | String "-" u => (true, u)
                | String "+" u => (false, u)
                | _ => (false, t)
                end in
              let '(expDigits, _) := span isDigit u in
              if truthy expDigits
              then (if expNegative then - digitsValue expDigits else digitsValue expDigits)%Z
              else 0%Z
            else 0%Z
        | EmptyString => 0%Z
        end in
      signed (decimalValue (digitsValue (intPart ++ fracPart))
                           (exponent - stringLength fracPart)).

(** [Math.round(x)]: the integer nearest to [x], a tie going towards
    [+Infinity]; [NaN], the infinities and the zeros are returned as they are,
    and a negative [x] that rounds to zero gives [-0]. *)
Definition Math_round (x : float) : float :=
  match Prim2SF x with
  | S754_finite s m e =>
      if (0 <=? e)%Z then x
      else
        let n := if s then Zneg m else Zpos m in
        match ((2 * n + 2 ^ (- e)) / 2 ^ (1 - e))%Z with
        | Zpos p => of_uint63 (Uint63.of_Z (Zpos p))
        | Zneg p => - of_uint63 (Uint63.of_Z (Zpos p))
        | Z0 => if s then neg_zero else 0
        end
  | _ => x
  end.

(** ** Colours, paints and layer nodes *)

(** What the colour parser [getRgb] returns: channels in [0,1] and an alpha
    that may be absent. *)
Module RGB.
Record t : Type := mk { r : float; g : float; b : float; a : option float }.
End RGB.

Inductive PaintType : Type := SOLID | GRADIENT_LINEAR | IMAGE.

Module Paint.
Record t : Type := mk {
  type : PaintType;
  color : float * float * float;   (* r, g, b *)
  opacity : float
}.
End Paint.

(** [Pick<DOMRect, "top" | "left" | "right" | "bottom" | "width" | "height">] *)
Module DOMRect.
Record t : Type := mk {
  top : float; left : float; right : float; bottom : float;
  width : float; height : float
}.
End DOMRect.

(** An element of the rendered document, named by its identity. *)
Definition Element : Type := nat.

(** What a layer's [ref] points to: an element, or a node that is not an
    element (a text node) with its [parentElement]. *)
Inductive DomNode : Type :=
| ElementNode (e : Element)
| TextNode (parentElement : option Element).

Inductive NodeType : Type := FRAME | GROUP | RECTANGLE | TEXT | SVG.

Inductive ConstraintType : Type := MIN | CENTER | MAX | STRETCH | SCALE.

Record Constraints : Type := {
  horizontal : ConstraintType;
  vertical : ConstraintType
}.

(** [LayerNode], with the fields the helpers read or write; a field the
    object does not have is [None]. *)
Module Layer.
#[warnings="-register-all"]
Inductive LayerNode : Type := mk {
  type : NodeType;
  ref : option DomNode;
  x : option float;
  y : option float;
  width : option float;
  height : option float;
  fills : option (list Paint.t);
  strokes : option (list Paint.t);
  strokeWeight : option float;
  topLeftRadius : option float;
  topRightRadius : option float;
  bottomRightRadius : option float;
  bottomLeftRadius : option float;
  constraints : option Constraints;
  data : option (gmap string string);
  children : list LayerNode
}.

Definition setConstraints (n : LayerNode) (c : Constraints) : LayerNode :=
  mk (type n) (ref n) (x n) (y n) (width n) (height n) (fills n) (strokes n)
     (strokeWeight n) (topLeftRadius n) (topRightRadius n) (bottomRightRadius n)
     (bottomLeftRadius n) (Some c) (data n) (children n).

Definition setDataField (n : LayerNode) (d : gmap string string) : LayerNode :=
  mk (type n) (ref n) (x n) (y n) (width n) (height n) (fills n) (strokes n)
     (strokeWeight n) (topLeftRadius n) (topRightRadius n) (bottomRightRadius n)
     (bottomLeftRadius n) (constraints n) (Some d) (children n).

Definition setChildren (n : LayerNode) (cs : list LayerNode) : LayerNode :=
  mk (type n) (ref n) (x n) (y n) (width n) (height n) (fills n) (strokes n)
     (strokeWeight n) (topLeftRadius n) (topRightRadius n) (bottomRightRadius n)
     (bottomLeftRadius n) (constraints n) (data n) cs.

Definition setStrokes (n : LayerNode) (ps : list Paint.t) : LayerNode :=
  mk (type n) (ref n) (x n) (y n) (width n) (height n) (fills n) (Some ps)
     (strokeWeight n) (topLeftRadius n) (topRightRadius n) (bottomRightRadius n)
     (bottomLeftRadius n) (constraints n) (data n) (children n).

Definition setStrokeWeight (n : LayerNode) (w : float) : LayerNode :=
  mk (type n) (ref n) (x n) (y n) (width n) (height n) (fills n) (strokes n)
     (Some w) (topLeftRadius n) (topRightRadius n) (bottomRightRadius n)
     (bottomLeftRadius n) (constraints n) (data n) (children n).

Definition setTopLeftRadius (n : LayerNode) (v : float) : LayerNode :=
  mk (type n) (ref n) (x n) (y n) (width n) (height n) (fills n) (strokes n)
     (strokeWeight n) (Some v) (topRightRadius n) (bottomRightRadius n)
     (bottomLeftRadius n) (constraints n) (data n) (children n).

Definition setTopRightRadius (n : LayerNode) (v : float) : LayerNode :=
  mk (type n) (ref n) (x n) (y n) (width n) (height n) (fills n) (strokes n)
     (strokeWeight n) (topLeftRadius n) (Some v) (bottomRightRadius n)
     (bottomLeftRadius n) (constraints n) (data n) (children n).

Definition setBottomRightRadius (n : LayerNode) (v : float) : LayerNode :=
  mk (type n) (ref n) (x n) (y n) (width n) (height n) (fills n) (strokes n)
     (strokeWeight n) (topLeftRadius n) (topRightRadius n) (Some v)
     (bottomLeftRadius n) (constraints n) (data n) (children n).

Definition setBottomLeftRadius (n : LayerNode) (v : float) : LayerNode :=
  mk (type n) (ref n) (x n) (y n) (width n) (height n) (fills n) (strokes n)
     (strokeWeight n) (topLeftRadius n) (topRightRadius n) (bottomRightRadius n)
     (Some v) (constraints n) (data n) (children n).
End Layer.

Abbreviation LayerNode := Layer.LayerNode.

(** [function setData(node, key, value)]: the [data] object is created on
    first use, then the key is written. *)
Definition setData (node : LayerNode) (key value : string) : LayerNode :=
  Layer.setDataField node (<[key := value]> (default ∅ (Layer.data node))).

(** ** The rendered document

    The only part of the document the helpers write is the inline style of
    an element: a table from (element, property) to the declared value and its
    priority. A property that is not declared has no entry. *)

Abbreviation CSSStyleDeclaration := (gmap string string) (only parsing).
Abbreviation InlineStyles := (gmap (Element * string) (string * string)) (only parsing).

(** A declaration object handed out by [getComputedStyle]. Reading a property
    of it consults the document as it is at the time of the read, so the type
    covers both a host whose declarations are live and one that hands out
    snapshots (a constant function). *)
Definition ComputedStyle : Type := InlineStyles -> CSSStyleDeclaration.

Inductive ElementClass : Type := HTMLElement | SVGElement | OtherElement.

(** The rendering host: which class an element is an instance of, its
    [parentElement], style resolution, which is [None] where the call raises,
    which priority strings its [setProperty] takes, and which elements that
    are neither HTML nor SVG elements carry a [style] object. (CSSOM takes
    the empty string and [important], and ignores a call with any other
    priority; the specification of the constraint pass describes its call,
    made with [!important], as hiding the element. The host decides.) *)
Record Host : Type := {
  classOf : Element -> ElementClass;
  parentElement : Element -> option Element;
  resolveStyle : Element -> option string -> InlineStyles -> option ComputedStyle;
  takesPriority : string -> bool;
  otherHasStyle : Element -> bool
}.

(** Whether [el.style] is an object: it is for an HTML element and for an SVG
    element; for any other element (a MathML element has one, an element of
    an unknown namespace has none) the host decides. *)
Definition hasStyle (h : Host) (el : Element) : bool :=
  match classOf h el with
  | HTMLElement | SVGElement => true
  | OtherElement => otherHasStyle h el
  end.

(** How a computation over the document ends: with a value, or with an
    exception; either way the document is left in some state. *)
Inductive Outcome (A : Type) : Type :=
| Returned (value : A) (doc : InlineStyles)
| Thrown (doc : InlineStyles).
Arguments Returned {A} value doc.
Arguments Thrown {A} doc.

Definition Run (A : Type) : Type := InlineStyles -> Outcome A.

Definition ret {A : Type} (value : A) : Run A := fun doc => Returned value doc.

Definition bind {A B : Type} (m : Run A) (k : A -> Run B) : Run B :=
  fun doc =>
    match m doc with
    | Returned value doc' => k value doc'
    | Thrown doc' => Thrown doc'
    end.

Declare Scope run_scope.
Delimit Scope run_scope with run.
Notation "x <- m ;; k" := (bind m (fun x => k))
  (at level 100, m at next level, right associativity) : run_scope.
Notation "m ;;; k" := (bind m (fun _ => k))
  (at level 100, right associativity) : run_scope.

Definition finalDoc {A : Type} (o : Outcome A) : InlineStyles :=
  match o with
  | Returned _ doc => doc
  | Thrown doc => doc
  end.

(** The value [el.style.display] reads: the declared value, or the empty
    string. *)
Definition inlineDisplay (doc : InlineStyles) (el : Element) : string :=
  match doc !! (el, "display") with
  | Some (value, _) => value
  | None => ""
  end.

(** [el.style.display], as an expression: reading a property of [el.style]
    raises a [TypeError] where [el.style] is [undefined]. *)
Definition getStyleDisplay (h : Host) (el : Element) : Run string :=
  fun doc =>
    if hasStyle h el then Returned (inlineDisplay doc el) doc else Thrown doc.

(** [el.style.setProperty(name, value, priority)]: when the host takes the
    priority, the declaration is stored with it; otherwise the call does
    nothing. *)
Definition setProperty (h : Host) (el : Element) (name value priority : string)
  : Run unit :=
  fun doc =>
    Returned tt (if takesPriority h priority
                 then <[(el, name) := (value, priority)]> doc
                 else doc).

(** [el.style.display = value]: the empty string removes the declaration, any
    other value is declared without priority. *)
Definition setStyleDisplay (el : Element) (value : string) : Run unit :=
  fun doc =>
    Returned tt (if truthy value
                 then <[(el, "display") := (value, "")]> doc
                 else delete (el, "display") doc).

(** [getComputedStyle(el, pseudo)] *)
Definition getComputedStyle (h : Host) (el : Element) (pseudo : option string)
  : Run ComputedStyle :=
  fun doc =>
    match resolveStyle h el pseudo doc with
    | Some decl => Returned decl doc
    | None => Thrown doc
    end.

(** The declaration as it reads now. *)
Definition readStyle (decl : ComputedStyle) : Run CSSStyleDeclaration :=
  fun doc => Returned (decl doc) doc.

(** [decl.name === value] *)
Definition propIs (decl : CSSStyleDeclaration) (name value : string) : bool :=
  bool_decide (decl !! name = Some value).

Local Open Scope run_scope.

(** ** [getAppliedComputedStyles] *)

(** The property names of [list]. *)
Definition allowList : list string :=
  [ "opacity"; "backgroundColor"; "border"; "borderTop"; "borderLeft";
    "borderRight"; "borderBottom"; "borderRadius"; "backgroundImage";
    "borderColor"; "boxShadow" ].

(** A value that may be [undefined], as string concatenation prints it. *)
Definition toStr (o : option string) : string := default "undefined" o.

(** The table [defaults], built from the element's resolved [color]. An entry
    whose value is [undefined] reads as [None], like a key that is not there. *)
Definition defaults (color : option string) : gmap string string :=
  let withColor : gmap string string :=
    match color with
    | Some c => {[ "borderColor" := c ]}
    | None => ∅
    end in
  list_to_map
    [ ("transform", "none");
      ("opacity", "1");
      ("borderRadius", "0px");
      ("backgroundImage", "none");
      ("backgroundPosition", "0% 0%");
      ("backgroundSize", "auto");
      ("backgroundColor", "rgba(0, 0, 0, 0)");
      ("backgroundAttachment", "scroll");
      ("border", "0px none " ++ toStr color);
      ("borderTop", "0px none " ++ toStr color);
      ("borderBottom", "0px none " ++ toStr color);
      ("borderLeft", "0px none " ++ toStr color);
      ("borderRight", "0px none " ++ toStr color);
      ("borderWidth", "0px");
      ("borderStyle", "none");
      ("boxShadow", "none");
      ("fontWeight", "400");
      ("textAlign", "start");
      ("justifyContent", "normal");
      ("alignItems", "normal");
      ("alignSelf", "auto");
      ("flexGrow", "0");
      ("textDecoration", "none solid " ++ toStr color);
      ("lineHeight", "normal");
      ("letterSpacing", "normal");
      ("backgroundRepeat", "repeat");
      ("zIndex", "auto") ] ∪ withColor.

(** The inner function [pick], closed over the table of defaults. *)
Definition pick (defaultsTable object : gmap string string) (paths : list string)
  : gmap string string :=
  foldl
    (fun newObject path =>
       match object !! path with
       | Some value =>
           if truthy value && negb (bool_decide (Some value = defaultsTable !! path))
           then <[path := value]> newObject
           else newObject
       | None => newObject
       end)
    ∅ paths.

Definition getAppliedComputedStyles (h : Host) (element : Element)
    (pseudo : option string) : Run (gmap string string) :=
  match classOf h element with
  | OtherElement => ret ∅
  | _ =>
      decl <- getComputedStyle h element pseudo ;;
      styles <- readStyle decl ;;
      ret (pick (defaults (styles !! "color")) styles allowList)
  end.

(** ** [addConstraints] *)

(** The four [hasAutoMargin...] variables. *)
Record Flags : Type := {
  hasAutoMarginLeft : bool;
  hasAutoMarginRight : bool;
  hasAutoMarginTop : bool;
  hasAutoMarginBottom : bool
}.

(** The operators [&&] and [||] over values that are a string, [undefined] or
    [false]: every falsy result is [None]. *)
Definition andString (cond : bool) (value : option string) : option string :=
  if cond then (if truthyProp value then value else None) else None.

Definition orString (first second : option string) : option string :=
  match first with
  | Some _ => first
  | None => second
  end.

(** Lines 154 to 159: the value of [parentJustifyContent]. *)
Definition parentJustifyContent (parentStyle : gmap string string) : option string :=
  if propIs parentStyle "display" "flex"
  then orString
         (andString (propIs parentStyle "flexDirection" "row")
                    (parentStyle !! "justifyContent"))
         (andString (propIs parentStyle "flexDirection" "column")
                    (parentStyle !! "alignItems"))
  else None.

(** Lines 173 to 178: the value of [parentAlignItems]. *)
Definition parentAlignItems (parentStyle : gmap string string) : option string :=
  if propIs parentStyle "display" "flex"
  then orString
         (andString (propIs parentStyle "flexDirection" "column")
                    (parentStyle !! "justifyContent"))
         (andString (propIs parentStyle "flexDirection" "row")
                    (parentStyle !! "alignItems"))
  else None.

(** Lines 114 to 117. *)
Definition marginFlags (computed : gmap string string) : Flags :=
  {| hasAutoMarginLeft := propIs computed "marginLeft" "auto";
     hasAutoMarginRight := propIs computed "marginRight" "auto";
     hasAutoMarginTop := propIs computed "marginTop" "auto";
     hasAutoMarginBottom := propIs computed "marginBottom" "auto" |}.

(** Lines 132 and 133. *)
Definition isInline (computed : gmap string string) : bool :=
  match computed !! "display" with
  | Some display => truthy display && includes display "inline"
  | None => false
  end.

(** Lines 136 to 150, the flag updates of the [isInline] branch. *)
Definition inlineFlags (parentStyle computed : gmap string string) (f : Flags) : Flags :=
  let f1 :=
    if propIs parentStyle "textAlign" "center" then
      {| hasAutoMarginLeft := true; hasAutoMarginRight := true;
         hasAutoMarginTop := hasAutoMarginTop f;
         hasAutoMarginBottom := hasAutoMarginBottom f |}
    else if propIs parentStyle "textAlign" "right" then
      {| hasAutoMarginLeft := true; hasAutoMarginRight := hasAutoMarginRight f;
         hasAutoMarginTop := hasAutoMarginTop f;
         hasAutoMarginBottom := hasAutoMarginBottom f |}
    else f in
  if propIs computed "verticalAlign" "middle" then
    {| hasAutoMarginLeft := hasAutoMarginLeft f1;
       hasAutoMarginRight := hasAutoMarginRight f1;
       hasAutoMarginTop := true; hasAutoMarginBottom := true |}
  else if propIs computed "verticalAlign" "bottom" then
    {| hasAutoMarginLeft := hasAutoMarginLeft f1;
       hasAutoMarginRight := hasAutoMarginRight f1;
       hasAutoMarginTop := true; hasAutoMarginBottom := false |}
  else f1.

(** Lines 161 to 171. *)
Definition justifyFlags (signal : option string) (f : Flags) : Flags :=
  match signal with
  | Some s =>
      if String.eqb s "center" then
        {| hasAutoMarginLeft := true; hasAutoMarginRight := true;
           hasAutoMarginTop := hasAutoMarginTop f;
           hasAutoMarginBottom := hasAutoMarginBottom f |}
      else if includes s "end" || includes s "right" then
        {| hasAutoMarginLeft := true; hasAutoMarginRight := false;
           hasAutoMarginTop := hasAutoMarginTop f;
           hasAutoMarginBottom := hasAutoMarginBottom f |}
      else f
  | None => f
  end.

(** Lines 179 to 189. *)
Definition alignFlags (signal : option string) (f : Flags) : Flags :=
  match signal with
  | Some s =>
      if String.eqb s "center" then
        {| hasAutoMarginLeft := hasAutoMarginLeft f;
           hasAutoMarginRight := hasAutoMarginRight f;
           hasAutoMarginTop := true; hasAutoMarginBottom := true |}
      else if includes s "end" || includes s "bottom" then
        {| hasAutoMarginLeft := hasAutoMarginLeft f;
           hasAutoMarginRight := hasAutoMarginRight f;
           hasAutoMarginTop := true; hasAutoMarginBottom := false |}
      else f
  | None => f
  end.

(** Lines 191 to 199. *)
Definition textFlags (type : NodeType) (computed : gmap string string) (f : Flags) : Flags :=
  match type with
  | TEXT =>
      if propIs computed "textAlign" "center" then
        {| hasAutoMarginLeft := true; hasAutoMarginRight := true;
           hasAutoMarginTop := hasAutoMarginTop f;
           hasAutoMarginBottom := hasAutoMarginBottom f |}
      else if propIs computed "textAlign" "right" then
        {| hasAutoMarginLeft := true; hasAutoMarginRight := false;
           hasAutoMarginTop := hasAutoMarginTop f;
           hasAutoMarginBottom := hasAutoMarginBottom f |}
      else f
  | _ => f
  end.

(** The flags as they stand when line 201 is reached. [margins] is the
    declaration obtained while the element was hidden, [computed] the one
    obtained after the restore. *)
Definition finalFlags (type : NodeType)
    (margins computed parentStyle : gmap string string) : Flags :=
  let f0 := marginFlags margins in
  let f1 := if isInline computed then inlineFlags parentStyle computed f0 else f0 in
  let f2 := justifyFlags (parentJustifyContent parentStyle) f1 in
  let f3 := alignFlags (parentAlignItems parentStyle) f2 in
  textFlags type computed f3.

(** Lines 201 to 214. *)
Definition resolveConstraints (f : Flags) : Constraints :=
  {| horizontal :=
       if hasAutoMarginLeft f && hasAutoMarginRight f then CENTER
       else if hasAutoMarginLeft f then MAX
       else SCALE;
     vertical :=
       if hasAutoMarginBottom f && hasAutoMarginTop f then CENTER
       else if hasAutoMarginTop f then MAX
       else MIN |}.

(** The [setData] calls of lines 121 to 153, in source order. *)
Definition annotate (child : LayerNode) (hasFixedWidth hasFixedHeight : bool)
    (computed : gmap string string) : LayerNode :=
  let child1 :=
    match computed !! "position" with
    | Some position =>
        if String.eqb position "absolute" || String.eqb position "fixed"
        then setData child "position" position
        else child
    | None => child
    end in
  let child2 := if hasFixedHeight then setData child1 "heightType" "fixed" else child1 in
  let child3 := if hasFixedWidth then setData child2 "widthType" "fixed" else child2 in
  if isInline computed then setData child3 "widthType" "shrink" else child3.

(** Lines 113 to 214: everything after the restore. No statement there
    writes to the document, so the three declarations are read in one and the
    same document state. *)
Definition inferConstraints (child : LayerNode) (hasFixedWidth hasFixedHeight : bool)
    (margins computed parentStyle : gmap string string) : LayerNode :=
  Layer.setConstraints
    (annotate child hasFixedWidth hasFixedHeight computed)
    (resolveConstraints (finalFlags (Layer.type child) margins computed parentStyle)).

(** Lines 108 to 111: a resolved size that ends in [px]. *)
Definition hasFixedSize (size : option string) : bool :=
  match size with
  | Some s => truthy s && endsWith (trim s) "px"
  | None => false
  end.

(** Line 102: the element to inspect. *)
Definition inspectedElement (h : Host) (ref : DomNode) : option Element :=
  match ref with
  | ElementNode e =>
      match classOf h e with
      | HTMLElement => Some e
      | _ => parentElement h e
      end
  | TextNode parent => parent
  end.

(** Lines 105 to 112: the fixed-size probe. Lines 106 and 112 use [el.style]
    again, which line 105 has found to be an object. *)
Definition probe (h : Host) (el : Element) : Run (ComputedStyle * bool * bool) :=
  currentDisplay <- getStyleDisplay h el ;;
  (setProperty h el "display" "none" "!important" ;;;
  computed <- getComputedStyle h el None ;;
  hidden <- readStyle computed ;;
  let hasFixedWidth := hasFixedSize (hidden !! "width") in
  let hasFixedHeight := hasFixedSize (hidden !! "height") in
  (setStyleDisplay el currentDisplay ;;;
  ret (computed, hasFixedWidth, hasFixedHeight))).

(** The callback [addConstraints] passes to [traverse]. *)
Definition constrainChild (h : Host) (child : LayerNode) : Run LayerNode :=
  match Layer.type child with
  | SVG => ret (Layer.setConstraints child {| horizontal := CENTER; vertical := MIN |})
  | _ =>
      match Layer.ref child with
      | Some ref =>
          let el := inspectedElement h ref in
          let parent := el ≫= parentElement h in
          match el, parent with
          | Some el, Some parent =>
              probed <- probe h el ;;
              let '(computed, hasFixedWidth, hasFixedHeight) := probed in
              parentStyleDecl <- getComputedStyle h parent None ;;
              margins <- readStyle computed ;;
              computed' <- getComputedStyle h el None ;;
              style <- readStyle computed' ;;
              parentStyle <- readStyle parentStyleDecl ;;
              ret (inferConstraints child hasFixedWidth hasFixedHeight
                     margins style parentStyle)
          | _, _ => ret child
          end
      | None => ret (Layer.setConstraints child {| horizontal := SCALE; vertical := MIN |})
      end
  end.

(** Modelled from the spec: [traverse] of [./nodes], which is not among the
    sources. It visits every node of a layer tree once, in pre-order (the
    node, then its children in sequence order). The callback of
    [addConstraints] leaves [children] as it is, so the children visited are
    those of the node as given. *)
Fixpoint traverse (cb : LayerNode -> Run LayerNode) (layer : LayerNode) : Run LayerNode :=
  layer' <- cb layer ;;
  children' <-
    (fix visit (cs : list LayerNode) : Run (list LayerNode) :=
       match cs with
       | [] => ret []
       | c :: rest =>
           c' <- traverse cb c ;;
           rest' <- visit rest ;;
           ret (c' :: rest')
       end) (Layer.children layer) ;;
  ret (Layer.setChildren layer' children').

(** [items.forEach(f)]: the items in sequence order. *)
Section ForEach.
Context {A : Type} (f : A -> Run A).

Fixpoint forEach (items : list A) : Run (list A) :=
  match items with
  | [] => ret []
  | item :: rest =>
      item' <- f item ;;
      rest' <- forEach rest ;;
      ret (item' :: rest')
  end.
End ForEach.

Definition addConstraints (h : Host) (layers : list LayerNode) : Run (list LayerNode) :=
  forEach (traverse (constrainChild h)) layers.

(** ** [setBorderRadii] *)

(** What the length parser [parseUnits] returns for a length it understands. *)
Inductive LengthUnit : Type := PIXELS.

Module Length.
Record t : Type := mk { unit : LengthUnit; value : float }.
End Length.

(** [parseUnits] (of [./parsers], not among the sources) is an argument: it
    takes a property that may be [undefined] and returns a length or [null]. *)
Definition setBorderRadii (parseUnits : option string -> option Length.t)
    (computedStyle : gmap string string) (rectNode : LayerNode) : LayerNode :=
  let rectNode1 :=
    match parseUnits (computedStyle !! "borderTopLeftRadius") with
    | Some borderTopLeftRadius =>
        Layer.setTopLeftRadius rectNode (Length.value borderTopLeftRadius)
    | None => rectNode
    end in
  let rectNode2 :=
    match parseUnits (computedStyle !! "borderTopRightRadius") with
    | Some borderTopRightRadius =>
        Layer.setTopRightRadius rectNode1 (Length.value borderTopRightRadius)
    | None => rectNode1
    end in
  let rectNode3 :=
    match parseUnits (computedStyle !! "borderBottomRightRadius") with
    | Some borderBottomRightRadius =>
        Layer.setBottomRightRadius rectNode2 (Length.value borderBottomRightRadius)
    | None => rectNode2
    end in
  match parseUnits (computedStyle !! "borderBottomLeftRadius") with
  | Some borderBottomLeftRadius =>
      Layer.setBottomLeftRadius rectNode3 (Length.value borderBottomLeftRadius)
  | None => rectNode3
  end.

(** ** The border helpers *)

(** The type of [dir]. *)
Inductive Side : Type := top | left | right | bottom.

#[local] Instance Side_eq_dec : EqDecision Side.
Proof. solve_decision. Defined.

Definition sideName (dir : Side) : string :=
  match dir with
  | top => "top"
  | left => "left"
  | right => "right"
  | bottom => "bottom"
  end.

(** [["top", "bottom"].includes(dir)] *)
Definition isTopOrBottom (dir : Side) : bool :=
  String.eqb (sideName dir) "top" || String.eqb (sideName dir) "bottom".

(** [["left", "right"].includes(dir)] *)
Definition isLeftOrRight (dir : Side) : bool :=
  String.eqb (sideName dir) "left" || String.eqb (sideName dir) "right".

(** [rgb.a || 1] *)
Definition opacityOf (rgb : RGB.t) : float :=
  match RGB.a rgb with
  | Some alpha => if truthyNumber alpha then alpha else 1
  | None => 1
  end.

(** The paint both helpers build from a resolved colour. *)
Definition solidPaint (rgb : RGB.t) : Paint.t :=
  {| Paint.type := SOLID;
     Paint.color := (RGB.r rgb, RGB.g rgb, RGB.b rgb);
     Paint.opacity := opacityOf rgb |}.

(** The guard both helpers apply to the groups of a match:
    [width && width !== "0" && type !== "none" && color]. *)
Definition drawable (width type color : string) : bool :=
  truthy width && negb (String.eqb width "0") &&
  negb (String.eqb type "none") && truthy color.

(** The object literal pushed at lines 285 to 309. *)
Definition borderRectangle (dir : Side) (rect : DOMRect.t) (borderWidth : string)
    (rgb : RGB.t) (el : Element) : LayerNode :=
  let width := if isTopOrBottom dir then DOMRect.width rect else parseFloat borderWidth in
  let height := if isLeftOrRight dir then DOMRect.height rect else parseFloat borderWidth in
  {| Layer.type := RECTANGLE;
     Layer.ref := Some (ElementNode el);
     Layer.x :=
       Some (if String.eqb (sideName dir) "left" then DOMRect.left rect - width
             else if String.eqb (sideName dir) "right" then DOMRect.right rect
             else DOMRect.left rect);
     Layer.y :=
       Some (if String.eqb (sideName dir) "top" then DOMRect.top rect - height
             else if String.eqb (sideName dir) "bottom" then DOMRect.bottom rect
             else DOMRect.top rect);
     Layer.width := Some width;
     Layer.height := Some height;
     Layer.fills := Some [solidPaint rgb];
     Layer.strokes := None;
     Layer.strokeWeight := None;
     Layer.topLeftRadius := None;
     Layer.topRightRadius := None;
     Layer.bottomRightRadius := None;
     Layer.bottomLeftRadius := None;
     Layer.constraints := None;
     Layer.data := None;
     Layer.children := [] |}.

(** [getRgb] (of [./parsers], not among the sources) is an argument: it
    returns a colour, or [null] for a string it cannot resolve. The result is
    the [layers] array after the call. *)
Definition addStrokesFromIndividualBorders (getRgb : string -> option RGB.t)
    (dir : Side) (rect : DOMRect.t) (computedStyle : gmap string string)
    (layers : list LayerNode) (el : Element) : list LayerNode :=
  match computedStyle !! ("border" ++ capitalize (sideName dir)) with
  | Some computed =>
      if truthy computed then
        match matchBorder computed with
        | Some (borderWidth, type, color) =>
            if drawable borderWidth type color then
              match getRgb color with
              | Some rgb => layers ++ [borderRectangle dir rect borderWidth rgb el]
              | None => layers
              end
            else layers
        | None => layers
        end
      else layers
  | None => layers
  end.

(** The result is [rectNode] after the call. *)
Definition addStrokesFromBorder (getRgb : string -> option RGB.t)
    (computedStyle : gmap string string) (rectNode : LayerNode) : LayerNode :=
  match computedStyle !! "border" with
  | Some border =>
      if truthy border then
        match matchBorder border with
        | Some (width, type, color) =>
            if drawable width type color then
              match getRgb color with
              | Some rgb =>
                  Layer.setStrokeWeight
                    (Layer.setStrokes rectNode [solidPaint rgb])
                    (Math_round (parseFloat width))
              | None => rectNode
              end
            else rectNode
        | None => rectNode
        end
      else rectNode
  | None => rectNode
  end.

(** ** [getShadowEffects] *)

(** What [parseBoxShadowStr] returns, with the fields the helper reads. *)
Module BoxShadow.
Record t : Type := mk {
  color : string;
  blurRadius : float;
  offsetX : float;
  offsetY : float
}.
End BoxShadow.

Inductive EffectType : Type := DROP_SHADOW | INNER_SHADOW.

Inductive BlendMode : Type := NORMAL | MULTIPLY.

Module ShadowEffect.
Record t : Type := mk {
  color : RGB.t;
  type : EffectType;
  radius : float;
  blendMode : BlendMode;
  visible : bool;
  offset : float * float   (* x, y *)
}.
End ShadowEffect.

(** [parseBoxShadowStr] and [getRgb] (of [./parsers], not among the sources)
    are arguments; [None] is [undefined]. *)
Definition getShadowEffects (parseBoxShadowStr : string -> BoxShadow.t)
    (getRgb : string -> option RGB.t) (computedStyle : gmap string string)
  : option (list ShadowEffect.t) :=
  match computedStyle !! "boxShadow" with
  | Some boxShadow =>
      if truthy boxShadow && negb (String.eqb boxShadow "none") then
        let parsed := parseBoxShadowStr boxShadow in
        match getRgb (BoxShadow.color parsed) with
        | Some color =>
            Some [ {| ShadowEffect.color := color;
                      ShadowEffect.type := DROP_SHADOW;
                      ShadowEffect.radius := BoxShadow.blurRadius parsed;
                      ShadowEffect.blendMode := NORMAL;
                      ShadowEffect.visible := true;
                      ShadowEffect.offset :=
                        (BoxShadow.offsetX parsed, BoxShadow.offsetY parsed) |} ]
        | None => None
        end
      else None
  | None => None
  end.

(** * Vocabulary of the statements

    Notions the properties are stated with: what a border string, a node or
    a document looks like before and after a helper ran. *)

(** Every character of a string satisfies [p]. *)
Fixpoint allChars (p : ascii -> bool) (s : string) : bool :=
  match s with
  | String c s' => p c && allChars p s'
  | EmptyString => true
  end.

(** The border pattern read as a description of strings: a non-empty run of
    digits and dots, [px], white space, a non-empty word, white space, and a
    rest without line terminator. *)
Definition borderShaped (s : string) : Prop :=
  exists width ws1 type ws2 rest,
    s = width ++ "px" ++ ws1 ++ type ++ ws2 ++ rest /\
    width <> "" /\ allChars isDigitOrDot width = true /\
    allChars isWhiteSpace ws1 = true /\
    type <> "" /\ allChars isWordChar type = true /\
    allChars isWhiteSpace ws2 = true /\
    anyChar isLineTerminator rest = false.

(** The horizontal constraint a node ends with. *)
Definition horizontalOf (n : LayerNode) : option ConstraintType :=
  horizontal <$> Layer.constraints n.

(** The name of the per-side border property of [dir]. *)
Definition sideProperty (dir : Side) : string := "border" ++ capitalize (sideName dir).

(** When a border string draws nothing, in the words of the specification: it
    is missing, or it does not match the pattern, or its width is [0], or its
    style is [none]. *)
Definition suppressed (border : option string) : Prop :=
  match border with
  | None => True
  | Some s =>
      match matchBorder s with
      | None => True
      | Some (width, type, _) => width = "0" \/ type = "none"
      end
  end.

(** Two nodes that agree on every field but the four corner radii. *)
Definition sameOutsideRadii (n n' : LayerNode) : Prop :=
  Layer.type n' = Layer.type n /\ Layer.ref n' = Layer.ref n /\
  Layer.x n' = Layer.x n /\ Layer.y n' = Layer.y n /\
  Layer.width n' = Layer.width n /\ Layer.height n' = Layer.height n /\
  Layer.fills n' = Layer.fills n /\ Layer.strokes n' = Layer.strokes n /\
  Layer.strokeWeight n' = Layer.strokeWeight n /\
  Layer.constraints n' = Layer.constraints n /\
  Layer.data n' = Layer.data n /\ Layer.children n' = Layer.children n.

(** What one corner holds after the mapper ran: the parsed value when the
    parser returned a length, the value it held before otherwise. *)
Definition cornerAfter (parsed : option Length.t) (before : option float) : option float :=
  match parsed with
  | Some len => Some (Length.value len)
  | None => before
  end.

(** Where the rectangle of a side goes, in the words of the specification,
    as (x, y, width, height): it spans the box along the side, is as thick as
    the parsed width, and sits outside the box edge for [top] and [left], at
    the opposite edge for [bottom] and [right]. *)
Definition sideGeometry (dir : Side) (rect : DOMRect.t) (thickness : float)
  : float * float * float * float :=
  match dir with
  | top =>
      (DOMRect.left rect, DOMRect.top rect - thickness, DOMRect.width rect, thickness)
  | left =>
      (DOMRect.left rect - thickness, DOMRect.top rect, thickness, DOMRect.height rect)
  | right =>
      (DOMRect.right rect, DOMRect.top rect, thickness, DOMRect.height rect)
  | bottom =>
      (DOMRect.left rect, DOMRect.bottom rect, DOMRect.width rect, thickness)
  end.

(** The geometry a node carries. *)
Definition geometryOf (n : LayerNode) : option (float * float * float * float) :=
  match Layer.x n, Layer.y n, Layer.width n, Layer.height n with
  | Some x, Some y, Some w, Some h => Some (x, y, w, h)
  | _, _, _, _ => None
  end.

(** The per-side helper called once for each side of [dirs], in order. *)
Definition decomposeBorders (getRgb : string -> option RGB.t) (rect : DOMRect.t)
    (computedStyle : gmap string string) (el : Element)
    (dirs : list Side) (layers : list LayerNode) : list LayerNode :=
  foldl (fun ls dir => addStrokesFromIndividualBorders getRgb dir rect computedStyle ls el)
        layers dirs.

(** The document once [el] has been force-hidden (line 106), and once its
    inline [display] has been put back (line 112). *)
Definition hiddenDoc (h : Host) (el : Element)
    (doc : gmap (Element * string) (string * string))
  : gmap (Element * string) (string * string) :=
  finalDoc (setProperty h el "display" "none" "!important" doc).

Definition restoredDoc (h : Host) (el : Element)
    (doc : gmap (Element * string) (string * string))
  : gmap (Element * string) (string * string) :=
  finalDoc (setStyleDisplay el (inlineDisplay doc el) (hiddenDoc h el doc)).

(** Two documents in which every element has the same inline [display]
    value. *)
Definition sameDisplay (doc doc' : gmap (Element * string) (string * string)) : Prop :=
  forall el, inlineDisplay doc' el = inlineDisplay doc el.

(** How a run may leave the document, relative to the one it started in:
    with every inline [display] value as before; or stopped by the style
    resolution of a probe, with the probed element still force-hidden in a
    document that otherwise has every [display] value as before. *)
Definition displayKept {A : Type} (h : Host)
    (doc : gmap (Element * string) (string * string)) (o : Outcome A) : Prop :=
  sameDisplay doc (finalDoc o) \/
  exists el doc0,
    o = Thrown (hiddenDoc h el doc0) /\
    sameDisplay doc doc0 /\
    resolveStyle h el None (hiddenDoc h el doc0) = None.



(** The constraints of a tree, node by node in pre-order. *)
Fixpoint constraintsIn (n : LayerNode) : list (option Constraints) :=
  Layer.constraints n :: concat (map constraintsIn (Layer.children n)).

(** Two nodes that agree on every field but [constraints], [data] and
    [children]. *)
Definition agreeOutside (n n' : LayerNode) : Prop :=
  Layer.type n' = Layer.type n /\ Layer.ref n' = Layer.ref n /\
  Layer.x n' = Layer.x n /\ Layer.y n' = Layer.y n /\
  Layer.width n' = Layer.width n /\ Layer.height n' = Layer.height n /\
  Layer.fills n' = Layer.fills n /\ Layer.strokes n' = Layer.strokes n /\
  Layer.strokeWeight n' = Layer.strokeWeight n /\
  Layer.topLeftRadius n' = Layer.topLeftRadius n /\
  Layer.topRightRadius n' = Layer.topRightRadius n /\
  Layer.bottomRightRadius n' = Layer.bottomRightRadius n /\
  Layer.bottomLeftRadius n' = Layer.bottomLeftRadius n.

(** The [data] object after [setData] wrote one key into it. *)
Definition written (key value : string) (data : option (gmap string string))
  : option (gmap string string) :=
  Some (<[key := value]> (default ∅ data)).

(** The [data] object after the [setData] calls of [annotate]. *)
Definition annotated (hasFixedWidth hasFixedHeight : bool)
    (computed : gmap string string) (data : option (gmap string string))
  : option (gmap string string) :=
  let data1 :=
    match computed !! "position" with
    | Some position =>
        if String.eqb position "absolute" || String.eqb position "fixed"
        then written "position" position data
        else data
    | None => data
    end in
  let data2 := if hasFixedHeight then written "heightType" "fixed" data1 else data1 in
  let data3 := if hasFixedWidth then written "widthType" "fixed" data2 else data2 in
  if isInline computed then written "widthType" "shrink" data3 else data3.


(** Two nodes that agree on every field but [strokes] and [strokeWeight]. *)
Definition sameOutsideStroke (n n' : LayerNode) : Prop :=
  Layer.type n' = Layer.type n /\ Layer.ref n' = Layer.ref n /\
  Layer.x n' = Layer.x n /\ Layer.y n' = Layer.y n /\
  Layer.width n' = Layer.width n /\ Layer.height n' = Layer.height n /\
  Layer.fills n' = Layer.fills n /\
  Layer.topLeftRadius n' = Layer.topLeftRadius n /\
  Layer.topRightRadius n' = Layer.topRightRadius n /\
  Layer.bottomRightRadius n' = Layer.bottomRightRadius n /\
  Layer.bottomLeftRadius n' = Layer.bottomLeftRadius n /\
  Layer.constraints n' = Layer.constraints n /\
  Layer.data n' = Layer.data n /\ Layer.children n' = Layer.children n.

(** Two trees of the same shape whose nodes agree on every field but
    [constraints] and [data]. *)
#[warnings="-register-all"]
Inductive sameButAnnotations : LayerNode -> LayerNode -> Prop :=
| sameButAnnotations_node (n n' : LayerNode) :
    agreeOutside n n' ->
    Forall2 sameButAnnotations (Layer.children n) (Layer.children n') ->
    sameButAnnotations n n'.



(** * Concrete inputs

    Styles, nodes, hosts and parsers on which the helpers are run in the
    examples. *)

(** A declaration with the given properties. *)
Definition declaration (entries : list (string * string)) : gmap string string :=
  list_to_map entries.

(** A node of the given kind, [ref] and children, with no other field. *)
Definition bareNode (type : NodeType) (ref : option DomNode) (children : list LayerNode)
  : LayerNode :=
  {| Layer.type := type; Layer.ref := ref;
     Layer.x := None; Layer.y := None; Layer.width := None; Layer.height := None;
     Layer.fills := None; Layer.strokes := None; Layer.strokeWeight := None;
     Layer.topLeftRadius := None; Layer.topRightRadius := None;
     Layer.bottomRightRadius := None; Layer.bottomLeftRadius := None;
     Layer.constraints := None; Layer.data := None; Layer.children := children |}.


(** A flex row that packs its children at the end. *)
Definition flexEndParent : gmap string string :=
  declaration [ ("display", "flex"); ("flexDirection", "row");
                ("justifyContent", "flex-end"); ("alignItems", "normal") ].


Definition centredText : gmap string string :=
  declaration [ ("display", "block"); ("position", "static");
                ("marginLeft", "0px"); ("marginRight", "0px");
                ("marginTop", "0px"); ("marginBottom", "0px");
                ("textAlign", "center"); ("verticalAlign", "baseline") ].

(** A colour resolver for the examples: a named colour without alpha and a
    half-transparent black; nothing else resolves. *)
Definition sampleGetRgb (color : string) : option RGB.t :=
  if String.eqb color "red" then Some (RGB.mk 1 0 0 None)
  else if String.eqb color "rgba(0, 0, 0, 0.5)" then Some (RGB.mk 0 0 0 (Some 0.5))
  else None.

(** A length parser for the examples: it understands two lengths. *)
Definition sampleParseUnits (str : option string) : option Length.t :=
  match str with
  | Some s =>
      if String.eqb s "4px" then Some (Length.mk PIXELS 4)
      else if String.eqb s "0px" then Some (Length.mk PIXELS 0)
      else None
  | None => None
  end.

(** An element box 100 wide and 50 high, at (20, 10). *)
Definition sampleBox : DOMRect.t :=
  {| DOMRect.top := 10; DOMRect.left := 20; DOMRect.right := 120;
     DOMRect.bottom := 60; DOMRect.width := 100; DOMRect.height := 50 |}.

(** The resolved styles of an element that sits at every baseline, with text
    colour black. *)
Definition baselineStyles : gmap string string :=
  declaration
    [ ("color", "rgb(0, 0, 0)"); ("opacity", "1");
      ("backgroundColor", "rgba(0, 0, 0, 0)");
      ("border", "0px none rgb(0, 0, 0)"); ("borderTop", "0px none rgb(0, 0, 0)");
      ("borderLeft", "0px none rgb(0, 0, 0)"); ("borderRight", "0px none rgb(0, 0, 0)");
      ("borderBottom", "0px none rgb(0, 0, 0)"); ("borderRadius", "0px");
      ("backgroundImage", "none"); ("borderColor", "rgb(0, 0, 0)");
      ("boxShadow", "none"); ("display", "block"); ("width", "auto") ].

(** A host whose every element is an HTML element under element 0, and
    resolves to the baseline styles; its [setProperty] takes any priority. *)
Definition baselineHost : Host :=
  {| classOf := fun _ => HTMLElement;
     parentElement := fun e => match e with O => None | S _ => Some O end;
     resolveStyle := fun _ _ _ => Some (fun _ => baselineStyles);
     takesPriority := fun _ => true;
     otherHasStyle := fun _ => false |}.

(** Scenario C: a red top border two pixels thick, no border elsewhere. *)
Definition topBorderOnly : gmap string string :=
  declaration
    [ ("borderTop", "2px solid red"); ("borderLeft", "0px none red");
      ("borderRight", "0px none red"); ("borderBottom", "0px none red") ].

(** A host that hides on [setProperty] and on which style resolution raises
    for element 1, and a document in which that element is displayed as a
    block. *)
Definition failingHost : Host :=
  {| classOf := fun _ => HTMLElement;
     parentElement := fun e => match e with O => None | S _ => Some O end;
     resolveStyle := fun e _ _ =>
       match e with
       | 1%nat => None
       | _ => Some (fun _ => baselineStyles)
       end;
     takesPriority := fun _ => true;
     otherHasStyle := fun _ => false |}.

Definition blockDoc : gmap (Element * string) (string * string) :=
  {[ (1%nat, "display") := ("block", "") ]}.

(** A small tree: a frame holding a text run, an SVG
    and a group without [ref]. *)
Definition sampleTree : LayerNode :=
  bareNode FRAME (Some (ElementNode 2%nat))
    [ bareNode TEXT (Some (TextNode (Some 2%nat))) [];
      bareNode SVG (Some (ElementNode 3%nat)) [];
      bareNode GROUP None [] ].

(** A host with live declarations: an element reads its specified size
    while its inline [display] is [none], and its laid-out styles otherwise;
    element 1 is a flex row packing at the end, and the parent of the
    others. *)
Definition liveHost : Host :=
  {| classOf := fun e => match e with 3%nat => SVGElement | _ => HTMLElement end;
     parentElement := fun e => match e with O => None | 1%nat => Some O | S _ => Some 1%nat end;
     resolveStyle := fun e _ _ =>
       Some (fun doc =>
               if String.eqb (inlineDisplay doc e) "none"
               then declaration [ ("display", "none"); ("width", "120px");
                                  ("height", "auto"); ("position", "absolute");
                                  ("marginLeft", "auto"); ("marginRight", "0px") ]
               else match e with
                    | 1%nat => flexEndParent
                    | _ => declaration [ ("display", "inline-block"); ("width", "120px");
                                         ("height", "18px"); ("position", "absolute");
                                         ("marginLeft", "30px"); ("marginRight", "0px");
                                         ("textAlign", "start") ]
                    end);
     takesPriority := fun _ => true;
     otherHasStyle := fun _ => false |}.

(** A shadow parser for the examples: every string parses to one black shadow. *)
Definition sampleParseBoxShadowStr (str : string) : BoxShadow.t :=
  {| BoxShadow.color := "rgba(0, 0, 0, 0.5)"; BoxShadow.blurRadius := 4;
     BoxShadow.offsetX := 0; BoxShadow.offsetY := 2 |}.

(** A block with both horizontal margins [auto], and a parent that is not a
    flex container. *)
Definition centredBlock : gmap string string :=
  declaration [ ("display", "block"); ("position", "static");
                ("marginLeft", "auto"); ("marginRight", "auto");
                ("marginTop", "0px"); ("marginBottom", "0px");
                ("textAlign", "start"); ("verticalAlign", "baseline") ].

Definition blockParent : gmap string string :=
  declaration [ ("display", "block"); ("flexDirection", "row");
                ("justifyContent", "normal"); ("alignItems", "normal");
                ("textAlign", "start") ].

(** * Vocabulary of the further properties *)

(** Whether [pick] keeps a property: its value is there, is not empty and is
    not the default. *)
Definition kept (defaultsTable object : gmap string string) (path : string) : bool :=
  match object !! path with
  | Some value => truthy value && negb (bool_decide (Some value = defaultsTable !! path))
  | None => false
  end.

(** A key of a [data] object that may not be there at all. *)
Definition dataLookup (data : option (gmap string string)) (key : string) : option string :=
  data ≫= (fun m => m !! key).


(** A property that holds of a node and of every node below it. *)
#[warnings="-register-all"]
Inductive everyNode (P : LayerNode -> Prop) : LayerNode -> Prop :=
| everyNode_here (n : LayerNode) :
    P n -> Forall (everyNode P) (Layer.children n) -> everyNode P n.

(** The constraints the pass gives the nodes it decides without looking at
    the document: an SVG node, and a node without [ref]. *)
Definition decidedByKind (n : LayerNode) : Prop :=
  (Layer.type n = SVG ->
   Layer.constraints n = Some {| horizontal := CENTER; vertical := MIN |}) /\
  (Layer.type n <> SVG -> Layer.ref n = None ->
   Layer.constraints n = Some {| horizontal := SCALE; vertical := MIN |}).

(** The values the pass writes on each axis. *)
Definition writtenRange (c : Constraints) : Prop :=
  (horizontal c = CENTER \/ horizontal c = MAX \/ horizontal c = SCALE) /\
  (vertical c = CENTER \/ vertical c = MAX \/ vertical c = MIN).

(** Two documents that declare the same inline properties other than
    [display]. *)
Definition sameOtherProperties (doc doc' : gmap (Element * string) (string * string))
  : Prop :=
  forall el name, name <> "display" -> doc' !! (el, name) = doc !! (el, name).

(** A rectangle a border side was turned into, owned by [el]. *)
Definition borderOf (el : Element) (n : LayerNode) : Prop :=
  Layer.type n = RECTANGLE /\ Layer.ref n = Some (ElementNode el).

(** An element whose opacity alone is off its baseline. *)
Definition fadedStyles : gmap string string :=
  <["opacity" := "0.5"]> baselineStyles.

Definition fadedHost : Host :=
  {| classOf := fun e => match e with O => OtherElement | _ => HTMLElement end;
     parentElement := fun e => match e with O => None | S _ => Some O end;
     resolveStyle := fun e _ _ =>
       match e with
       | 2%nat => None
       | _ => Some (fun _ => fadedStyles)
       end;
     takesPriority := fun _ => true;
     otherHasStyle := fun _ => false |}.

(** A host whose [setProperty] takes the two priorities of CSSOM only, and
    on which style resolution raises for element 1. *)
Definition strictHost : Host :=
  {| classOf := fun _ => HTMLElement;
     parentElement := fun e => match e with O => None | S _ => Some O end;
     resolveStyle := fun e _ _ =>
       match e with
       | 1%nat => None
       | _ => Some (fun _ => baselineStyles)
       end;
     takesPriority := fun p => String.eqb p "" || String.eqb p "important";
     otherHasStyle := fun _ => false |}.

(** A document with an inline colour and an inline display on element 1. *)
Definition styledDoc : gmap (Element * string) (string * string) :=
  {[ (1%nat, "display") := ("block", ""); (1%nat, "color") := ("red", "important") ]}.

(** A document in which element 2 is displayed as a block, marked important. *)
Definition importantDoc : gmap (Element * string) (string * string) :=
  {[ (2%nat, "display") := ("block", "important") ]}.



(** A host on which element 1, a child of element 0, is neither an HTML nor
    an SVG element and carries no [style] object. *)
Definition foreignHost : Host :=
  {| classOf := fun e => match e with 1%nat => OtherElement | _ => HTMLElement end;
     parentElement := fun e => match e with O => None | S _ => Some O end;
     resolveStyle := fun _ _ _ => Some (fun _ => baselineStyles);
     takesPriority := fun _ => true;
     otherHasStyle := fun _ => false |}.

(** * Properties *)

(** ** The JavaScript primitives on sample inputs *)

Example parseFloat_samples :
  parseFloat "2" = 2%float /\
  parseFloat "3.6" = (36 / 10)%float /\
  parseFloat "0.1" = (1 / 10)%float /\
  parseFloat "1.2.3" = (12 / 10)%float /\
  parseFloat ".5" = (1 / 2)%float /\
  parseFloat "5." = 5%float /\
  parseFloat "." = nan /\
  parseFloat "  12px" = 12%float /\
  parseFloat "-1e3" = (-1000)%float /\
  parseFloat "9007199254740993" = 9007199254740992%float.
Proof. vm_compute. repeat split; reflexivity. Qed.

Example Math_round_samples :
  Math_round (36 / 10) = 4%float /\
  Math_round (5 / 2) = 3%float /\
  Math_round (- (5 / 2)) = (-2)%float /\
  Math_round (- (1 / 5)) = neg_zero /\
  Math_round (1 / 2) = 1%float /\
  Math_round nan = nan /\
  Math_round infinity = infinity.
Proof. vm_compute. repeat split; reflexivity. Qed.

Example matchBorder_samples :
  matchBorder "2px solid red" = Some ("2", "solid", "red") /\
  matchBorder "0px none rgb(0, 0, 0)" = Some ("0", "none", "rgb(0, 0, 0)") /\
  matchBorder "1.5px  dashed   rgb(1, 2, 3) " = Some ("1.5", "dashed", "rgb(1, 2, 3) ") /\
  matchBorder "2px solid" = Some ("2", "solid", "") /\
  matchBorder "2px" = None /\
  matchBorder "medium none currentcolor" = None /\
  matchBorder " 2px solid red" = None /\
  matchBorder "thin 2px solid red" = None.
Proof. vm_compute. repeat split; reflexivity. Qed.

Example string_method_samples :
  trim "  12px " = "12px" /\
  endsWith (trim " 12px ") "px" = true /\
  endsWith "50%" "px" = false /\
  includes "flex-end" "end" = true /\
  includes "inline-block" "inline" = true /\
  includes "center" "end" = false /\
  capitalize "top" = "Top".
Proof. vm_compute. repeat split; reflexivity. Qed.

(** ** Strings and the border pattern *)

Lemma truthy_nonempty (s : string) : truthy s = true <-> s <> "".
Proof. destruct s; simpl; split; congruence. Qed.

Lemma eqb_false_of_neq (s t : string) : s <> t -> String.eqb s t = false.
Proof. intros H. now apply String.eqb_neq. Qed.

(** A match has a non-empty subject, a non-empty width and a non-empty type. *)
Lemma matchBorder_groups (s width type color : string) :
  matchBorder s = Some (width, type, color) ->
  truthy s = true /\ truthy width = true /\ truthy type = true.
Proof.
  unfold matchBorder.
  destruct (span isDigitOrDot s) as [w r1] eqn:Hw.
  destruct (truthy w) eqn:Htw; simpl; [| discriminate].
  destruct r1 as [| c1 r1]; [discriminate |].
  destruct (Ascii.eqb_spec c1 "p") as [-> | Hc1].
  2:{ destruct c1 as [[] [] [] [] [] [] [] []]; try discriminate. now destruct Hc1. }
  destruct r1 as [| c2 r1]; [discriminate |].
  destruct (Ascii.eqb_spec c2 "x") as [-> | Hc2].
  2:{ destruct c2 as [[] [] [] [] [] [] [] []]; try discriminate. now destruct Hc2. }
  destruct (span isWhiteSpace r1) as [ws1 r2].
  destruct (span isWordChar r2) as [ty r3].
  destruct (truthy ty) eqn:Hty; simpl; [| discriminate].
  destruct (span isWhiteSpace r3) as [ws2 r4].
  destruct (anyChar isLineTerminator r4); [discriminate |].
  intros [= <- <- <-]. repeat split; auto.
  destruct s; [simpl in Hw; injection Hw as <- _; discriminate | reflexivity].
Qed.

(** *** The matcher and the pattern *)

Lemma append_cons (c : ascii) (s t : string) : String c s ++ t = String c (s ++ t).
Proof. reflexivity. Qed.

Lemma append_nil (t : string) : "" ++ t = t.
Proof. reflexivity. Qed.

Lemma span_spec (p : ascii -> bool) (s pre rest : string) :
  span p s = (pre, rest) ->
  s = pre ++ rest /\ allChars p pre = true /\
  match rest with String c _ => p c = false | EmptyString => True end.
Proof.
  revert pre rest. induction s as [| c s IH]; intros pre rest; simpl.
  - intros [= <- <-]. repeat split.
  - destruct (p c) eqn:Hc.
    + destruct (span p s) as [pre' rest'].
      intros [= <- <-]. destruct (IH pre' rest' eq_refl) as (-> & Hall & Hstop).
      rewrite append_cons. simpl. rewrite Hc. repeat split; assumption.
    + intros [= <- <-]. rewrite append_nil. repeat split. exact Hc.
Qed.

(** Over a run of [p] characters, [span] goes on into what follows. *)
Lemma span_app (p : ascii -> bool) (run s : string) :
  allChars p run = true ->
  span p (run ++ s) = (run ++ fst (span p s), snd (span p s)).
Proof.
  induction run as [| c run IH]; intros Hall.
  - rewrite !append_nil. now destruct (span p s).
  - simpl in Hall. apply andb_true_iff in Hall as [Hc Hall].
    rewrite !append_cons. simpl. now rewrite Hc, (IH Hall).
Qed.

Lemma span_stops (p : ascii -> bool) (c : ascii) (s : string) :
  p c = false -> span p (String c s) = ("", String c s).
Proof. intros Hc. simpl. now rewrite Hc. Qed.

Lemma anyChar_app (p : ascii -> bool) (s t : string) :
  anyChar p (s ++ t) = anyChar p s || anyChar p t.
Proof.
  induction s as [| c s IH]; [reflexivity |].
  rewrite append_cons. simpl. now rewrite IH, orb_assoc.
Qed.

(** What [span] leaves is a part of the string it was given. *)
Lemma span_rest_clean (p q : ascii -> bool) (s : string) :
  anyChar q s = false -> anyChar q (snd (span p s)) = false.
Proof.
  intros Hclean. destruct (span p s) as [pre rest] eqn:Hspan.
  destruct (span_spec p s pre rest Hspan) as (-> & _).
  rewrite anyChar_app in Hclean. now apply orb_false_iff in Hclean.
Qed.

Lemma word_not_space (c : ascii) : isWordChar c = true -> isWhiteSpace c = false.
Proof. destruct c as [[] [] [] [] [] [] [] []]; vm_compute; congruence. Qed.

Lemma space_not_word (c : ascii) : isWhiteSpace c = true -> isWordChar c = false.
Proof. destruct c as [[] [] [] [] [] [] [] []]; vm_compute; congruence. Qed.

(** What the matcher returns has the shape the pattern describes. *)
Lemma matchBorder_sound (s width type color : string) :
  matchBorder s = Some (width, type, color) ->
  exists ws1 ws2,
    s = width ++ "px" ++ ws1 ++ type ++ ws2 ++ color /\
    allChars isDigitOrDot width = true /\ allChars isWhiteSpace ws1 = true /\
    allChars isWordChar type = true /\ allChars isWhiteSpace ws2 = true /\
    anyChar isLineTerminator color = false.
Proof.
  unfold matchBorder.
  destruct (span isDigitOrDot s) as [w r1] eqn:Hw.
  destruct (truthy w); cbn [negb]; [| discriminate].
  destruct r1 as [| c1 r1]; [discriminate |].
  destruct (Ascii.eqb_spec c1 "p") as [-> | Hc1].
  2:{ destruct c1 as [[] [] [] [] [] [] [] []]; try discriminate. now destruct Hc1. }
  destruct r1 as [| c2 r1]; [discriminate |].
  destruct (Ascii.eqb_spec c2 "x") as [-> | Hc2].
  2:{ destruct c2 as [[] [] [] [] [] [] [] []]; try discriminate. now destruct Hc2. }
  destruct (span isWhiteSpace r1) as [ws1 r2] eqn:H1.
  destruct (span isWordChar r2) as [ty r3] eqn:H2.
  destruct (truthy ty); cbn [negb]; [| discriminate].
  destruct (span isWhiteSpace r3) as [ws2 r4] eqn:H3.
  destruct (anyChar isLineTerminator r4) eqn:Hlt; [discriminate |].
  intros [= <- <- <-].
  destruct (span_spec _ _ _ _ Hw) as (-> & Hallw & _).
  destruct (span_spec _ _ _ _ H1) as (-> & Hall1 & _).
  destruct (span_spec _ _ _ _ H2) as (-> & Hall2 & _).
  destruct (span_spec _ _ _ _ H3) as (-> & Hall3 & _).
  exists ws1, ws2. repeat split; assumption.
Qed.

(** Every string of that shape is matched: the longest runs the matcher
    takes are no obstacle. *)
Lemma matchBorder_complete (s : string) :
  borderShaped s -> exists groups, matchBorder s = Some groups.
Proof.
  intros (w & ws1 & ty & ws2 & rest & -> & Hw & Hallw & Hall1 & Hty & Hallty & Hall2 & Hlt).
  unfold matchBorder.
  rewrite (span_app _ w _ Hallw), !append_cons, append_nil.
  rewrite span_stops by reflexivity. cbn [fst snd].
  assert (Htw : truthy (w ++ "") = true) by (destruct w; [congruence | reflexivity]).
  rewrite Htw. cbn [negb].
  rewrite (span_app _ ws1 _ Hall1).
  destruct ty as [| t0 ty]; [congruence |].
  simpl in Hallty. apply andb_true_iff in Hallty as [Ht0 Hallty].
  rewrite append_cons.
  rewrite (span_stops isWhiteSpace t0) by now apply word_not_space.
  cbn [fst snd]. rewrite <- append_cons.
  rewrite (span_app isWordChar (String t0 ty)) by (simpl; now rewrite Ht0).
  assert (Htt : forall x, truthy (String t0 ty ++ x) = true) by reflexivity.
  rewrite Htt. cbn [negb].
  assert (Hclean : anyChar isLineTerminator
                     (snd (span isWhiteSpace (snd (span isWordChar (ws2 ++ rest))))) = false).
  { destruct ws2 as [| s0 ws2].
    - rewrite append_nil. now apply span_rest_clean, span_rest_clean.
    - simpl in Hall2. apply andb_true_iff in Hall2 as [Hs0 Hall2].
      rewrite append_cons.
      rewrite (span_stops isWordChar s0) by now apply space_not_word.
      cbn [snd]. rewrite <- append_cons.
      rewrite (span_app isWhiteSpace (String s0 ws2)) by (simpl; now rewrite Hs0).
      cbn [snd]. now apply span_rest_clean. }
  destruct (span isWhiteSpace (snd (span isWordChar (ws2 ++ rest)))) as [ws2' rest'].
  cbn [snd] in Hclean. rewrite Hclean. eauto.
Qed.

Lemma drawable_true (width type color : string) :
  truthy width = true -> width <> "0" -> type <> "none" -> color <> "" ->
  drawable width type color = true.
Proof.
  intros Hw H0 Hn Hc. unfold drawable.
  rewrite Hw, (eqb_false_of_neq _ _ H0), (eqb_false_of_neq _ _ Hn).
  apply truthy_nonempty in Hc. now rewrite Hc.
Qed.

Lemma drawable_zero (type color : string) : drawable "0" type color = false.
Proof. reflexivity. Qed.

Lemma drawable_none (width color : string) : drawable width "none" color = false.
Proof. unfold drawable. simpl. now rewrite !andb_false_r. Qed.

(** ** Resolution of the flags (lines 201 to 214) *)

(** C3. A node that reaches the final step of the constraint pass gets
    horizontal CENTER when both the left and the right flag are set, MAX when
    only the left one is, SCALE otherwise (also when only the right one is);
    and vertical CENTER when both the top and the bottom flag are set, MAX
    when only the top one is, MIN otherwise. *)
Theorem constraints_resolved_from_flags
    (child : LayerNode) (hasFixedWidth hasFixedHeight : bool)
    (margins computed parentStyle : gmap string string) :
  let f := finalFlags (Layer.type child) margins computed parentStyle in
  exists c,
    Layer.constraints
      (inferConstraints child hasFixedWidth hasFixedHeight margins computed parentStyle)
    = Some c /\
    (horizontal c = CENTER <->
       hasAutoMarginLeft f = true /\ hasAutoMarginRight f = true) /\
    (horizontal c = MAX <->
       hasAutoMarginLeft f = true /\ hasAutoMarginRight f = false) /\
    (horizontal c = SCALE <-> hasAutoMarginLeft f = false) /\
    (vertical c = CENTER <->
       hasAutoMarginTop f = true /\ hasAutoMarginBottom f = true) /\
    (vertical c = MAX <->
       hasAutoMarginTop f = true /\ hasAutoMarginBottom f = false) /\
    (vertical c = MIN <-> hasAutoMarginTop f = false).
Proof.
  intros f. exists (resolveConstraints f). split; [reflexivity |].
  unfold resolveConstraints; simpl.
  destruct (hasAutoMarginLeft f), (hasAutoMarginRight f),
    (hasAutoMarginTop f), (hasAutoMarginBottom f); simpl;
    repeat split; intros; try congruence; try tauto;
    match goal with H : _ /\ _ |- _ => destruct H; congruence end.
Qed.

(** ** The flex-parent adjustment (lines 154 to 171) *)


Lemma propIs_true (decl : gmap string string) (name value : string) :
  propIs decl name value = true <-> decl !! name = Some value.
Proof. unfold propIs. apply bool_decide_eq_true. Qed.

Lemma propIs_false (decl : gmap string string) (name value : string) :
  propIs decl name value = false <-> decl !! name <> Some value.
Proof. unfold propIs. apply bool_decide_eq_false. Qed.






(** ** The border helpers *)

Lemma per_side_suppressed
    (getRgb : string -> option RGB.t) (computedStyle : gmap string string)
    (dir : Side) (rect : DOMRect.t) (layers : list LayerNode) (el : Element) :
  suppressed (computedStyle !! sideProperty dir) ->
  addStrokesFromIndividualBorders getRgb dir rect computedStyle layers el = layers.
Proof.
  unfold suppressed, addStrokesFromIndividualBorders. fold (sideProperty dir).
  destruct (computedStyle !! sideProperty dir) as [s |]; [| reflexivity].
  destruct (truthy s); [| reflexivity].
  destruct (matchBorder s) as [[[w t] c] |]; [| reflexivity].
  intros [-> | ->]; [now rewrite drawable_zero | now rewrite drawable_none].
Qed.

Lemma shorthand_suppressed
    (getRgb : string -> option RGB.t) (computedStyle : gmap string string)
    (rectNode : LayerNode) :
  suppressed (computedStyle !! "border") ->
  addStrokesFromBorder getRgb computedStyle rectNode = rectNode.
Proof.
  unfold suppressed, addStrokesFromBorder.
  destruct (computedStyle !! "border") as [s |]; [| reflexivity].
  destruct (truthy s); [| reflexivity].
  destruct (matchBorder s) as [[[w t] c] |]; [| reflexivity].
  intros [-> | ->]; [now rewrite drawable_zero | now rewrite drawable_none].
Qed.

(** C5. In both modes a border string that is missing, or does not match
    the pattern, or whose width is [0], or whose style is [none], changes
    nothing: the per-side helper leaves [layers] as it is, the shorthand
    helper leaves the node (its strokes and stroke weight included) as it is,
    and both return normally. *)
Theorem suppressed_border_is_noop
    (getRgb : string -> option RGB.t) (computedStyle : gmap string string) :
  (forall dir rect layers el,
     suppressed (computedStyle !! sideProperty dir) ->
     addStrokesFromIndividualBorders getRgb dir rect computedStyle layers el = layers) /\
  (forall rectNode,
     suppressed (computedStyle !! "border") ->
     addStrokesFromBorder getRgb computedStyle rectNode = rectNode).
Proof.
  split.
  - intros dir rect layers el. apply per_side_suppressed.
  - intros rectNode. apply shorthand_suppressed.
Qed.

(** The no-op at a resolved [0px none] border, in both modes. *)
Lemma suppressed_border_is_noop_witness :
  addStrokesFromIndividualBorders sampleGetRgb left sampleBox
    {[ "borderLeft" := "0px none rgba(0, 0, 0, 0.5)" ]}
    [bareNode FRAME None []] 7%nat
  = [bareNode FRAME None []] /\
  addStrokesFromBorder sampleGetRgb
    {[ "border" := "0px none rgba(0, 0, 0, 0.5)" ]} (bareNode RECTANGLE None [])
  = bareNode RECTANGLE None [].
Proof.
  split.
  - apply (proj1 (suppressed_border_is_noop sampleGetRgb
                    {[ "borderLeft" := "0px none rgba(0, 0, 0, 0.5)" ]})).
    vm_compute. now left.
  - apply (proj2 (suppressed_border_is_noop sampleGetRgb
                    {[ "border" := "0px none rgba(0, 0, 0, 0.5)" ]})).
    vm_compute. now left.
Defined.

(** The width test compares the matched text with [0]: a width that is zero
    but written otherwise is not suppressed. *)
Lemma zero_written_otherwise_draws :
  addStrokesFromIndividualBorders sampleGetRgb bottom sampleBox
    {[ "borderBottom" := "0.0px solid red" ]} [] 7%nat
  = [borderRectangle bottom sampleBox "0.0" (RGB.mk 1 0 0 None) 7%nat].
Proof. vm_compute. reflexivity. Qed.

(** C9. One call of the per-side helper appends at most one node and leaves
    every entry that was there in place; a node it appends is a RECTANGLE
    whose [ref] is the owning element. *)
Theorem per_side_appends_at_most_one
    (getRgb : string -> option RGB.t) (dir : Side) (rect : DOMRect.t)
    (computedStyle : gmap string string) (layers : list LayerNode) (el : Element) :
  let layers' := addStrokesFromIndividualBorders getRgb dir rect computedStyle layers el in
  layers' = layers \/
  exists node,
    layers' = (layers ++ [node])%list /\
    Layer.type node = RECTANGLE /\
    Layer.ref node = Some (ElementNode el).
Proof.
  unfold addStrokesFromIndividualBorders.
  destruct (computedStyle !! _) as [s |]; [| now left].
  destruct (truthy s); [| now left].
  destruct (matchBorder s) as [[[w t] c] |]; [| now left].
  destruct (drawable w t c); [| now left].
  destruct (getRgb c) as [rgb |]; [| now left].
  right. eexists. repeat split.
Qed.

(** The opacity of the paint: the alpha when there is one and it is neither
    zero nor NaN, and 1 when there is none. *)
Lemma opacityOf_alpha (rgb : RGB.t) (alpha : float) :
  RGB.a rgb = Some alpha -> truthyNumber alpha = true -> opacityOf rgb = alpha.
Proof. intros Ha Ht. unfold opacityOf. now rewrite Ha, Ht. Qed.

Lemma opacityOf_absent (rgb : RGB.t) : RGB.a rgb = None -> opacityOf rgb = 1.
Proof. intros Ha. unfold opacityOf. now rewrite Ha. Qed.

(** Whenever a helper paints, it paints one solid paint of the resolved
    channels. *)
Lemma border_paint_is_solid (rgb : RGB.t) :
  Paint.type (solidPaint rgb) = SOLID /\
  Paint.color (solidPaint rgb) = (RGB.r rgb, RGB.g rgb, RGB.b rgb) /\
  Paint.opacity (solidPaint rgb) = opacityOf rgb.
Proof. repeat split. Qed.

(** The default is taken for an alpha of zero as for a missing one: the
    statement on the opacity needs a parser that resolves no such colour. *)
Lemma opacityOf_zero (rgb : RGB.t) : RGB.a rgb = Some 0%float -> opacityOf rgb = 1%float.
Proof. intros Ha. unfold opacityOf. now rewrite Ha. Qed.





(** ** The corner radii (lines 227 to 254) *)

(** C10. Each corner field is written exactly when the length parser
    returns a length for that corner's string, with the parsed value; the
    corners do not influence one another, and no other field changes. *)
Theorem corner_radii_written_independently
    (parseUnits : option string -> option Length.t)
    (computedStyle : gmap string string) (rectNode : LayerNode) :
  let rectNode' := setBorderRadii parseUnits computedStyle rectNode in
  Layer.topLeftRadius rectNode' =
    cornerAfter (parseUnits (computedStyle !! "borderTopLeftRadius"))
                (Layer.topLeftRadius rectNode) /\
  Layer.topRightRadius rectNode' =
    cornerAfter (parseUnits (computedStyle !! "borderTopRightRadius"))
                (Layer.topRightRadius rectNode) /\
  Layer.bottomRightRadius rectNode' =
    cornerAfter (parseUnits (computedStyle !! "borderBottomRightRadius"))
                (Layer.bottomRightRadius rectNode) /\
  Layer.bottomLeftRadius rectNode' =
    cornerAfter (parseUnits (computedStyle !! "borderBottomLeftRadius"))
                (Layer.bottomLeftRadius rectNode) /\
  sameOutsideRadii rectNode rectNode'.
Proof.
  unfold setBorderRadii, sameOutsideRadii, cornerAfter.
  destruct (parseUnits (computedStyle !! "borderTopLeftRadius"));
    destruct (parseUnits (computedStyle !! "borderTopRightRadius"));
    destruct (parseUnits (computedStyle !! "borderBottomRightRadius"));
    destruct (parseUnits (computedStyle !! "borderBottomLeftRadius"));
    simpl; repeat split.
Qed.

(** ** The style snapshot (lines 16 to 89) *)

Lemma pick_of_baseline (defaultsTable object : gmap string string) (paths : list string) :
  (forall path, path ∈ paths -> object !! path = defaultsTable !! path) ->
  pick defaultsTable object paths = ∅.
Proof.
  unfold pick. generalize (∅ : gmap string string) as acc.
  induction paths as [| path paths IH]; intros acc Hbase; [reflexivity |].
  simpl. rewrite <- (Hbase path) by apply list_elem_of_here.
  destruct (object !! path) as [value |].
  - rewrite bool_decide_eq_true_2 by reflexivity.
    rewrite andb_false_r. apply IH.
    intros p Hp. apply Hbase. now apply list_elem_of_further.
  - apply IH. intros p Hp. apply Hbase. now apply list_elem_of_further.
Qed.

(** C8. When the resolved value of every allow-listed property of an element
    equals that property's entry in the table of defaults, the snapshot
    reader returns the empty mapping. *)
Theorem snapshot_of_baseline_is_empty
    (h : Host) (element : Element) (pseudo : option string)
    (doc : gmap (Element * string) (string * string)) (decl : ComputedStyle)
    (Hresolved : resolveStyle h element pseudo doc = Some decl)
    (Hbaseline : forall path, path ∈ allowList ->
       decl doc !! path = defaults (decl doc !! "color") !! path) :
  getAppliedComputedStyles h element pseudo doc = Returned ∅ doc.
Proof.
  unfold getAppliedComputedStyles.
  destruct (classOf h element); try reflexivity;
    unfold bind, getComputedStyle, readStyle, ret; rewrite Hresolved;
    now rewrite pick_of_baseline.
Qed.

(** The reader on an element whose resolved styles are the baselines. *)
Lemma snapshot_of_baseline_is_empty_witness :
  getAppliedComputedStyles baselineHost 1%nat None ∅ = Returned ∅ ∅.
Proof.
  apply (snapshot_of_baseline_is_empty baselineHost 1%nat None ∅ (fun _ => baselineStyles)).
  - reflexivity.
  - intros path Hpath.
    repeat (apply elem_of_cons in Hpath as [-> | Hpath]; [vm_compute; reflexivity |]).
    now apply elem_of_nil in Hpath.
Defined.

(** ** The synthetic rectangle of a side (lines 271 to 314) *)

Lemma per_side_drawn
    (getRgb : string -> option RGB.t) (computedStyle : gmap string string)
    (dir : Side) (rect : DOMRect.t) (layers : list LayerNode) (el : Element)
    (s width style color : string) (rgb : RGB.t) :
  computedStyle !! sideProperty dir = Some s ->
  matchBorder s = Some (width, style, color) ->
  width <> "0" -> style <> "none" -> color <> "" ->
  getRgb color = Some rgb ->
  addStrokesFromIndividualBorders getRgb dir rect computedStyle layers el
  = (layers ++ [borderRectangle dir rect width rgb el])%list.
Proof.
  intros Hs Hm Hw Hst Hc Hrgb. unfold addStrokesFromIndividualBorders.
  fold (sideProperty dir). rewrite Hs.
  destruct (matchBorder_groups _ _ _ _ Hm) as (Hts & Htw & _).
  now rewrite Hts, Hm, (drawable_true _ _ _ Htw Hw Hst Hc), Hrgb.
Qed.

Lemma borderRectangle_geometry
    (dir : Side) (rect : DOMRect.t) (width : string) (rgb : RGB.t) (el : Element) :
  geometryOf (borderRectangle dir rect width rgb el)
  = Some (sideGeometry dir rect (parseFloat width)).
Proof. destruct dir; reflexivity. Qed.

(** Calling the helper for sides that are all suppressed changes nothing. *)
Lemma decomposeBorders_suppressed
    (getRgb : string -> option RGB.t) (rect : DOMRect.t)
    (computedStyle : gmap string string) (el : Element) (dirs : list Side) :
  forall layers,
    (forall d, d ∈ dirs -> suppressed (computedStyle !! sideProperty d)) ->
    decomposeBorders getRgb rect computedStyle el dirs layers = layers.
Proof.
  unfold decomposeBorders.
  induction dirs as [| d dirs IH]; intros layers Hsup; [reflexivity |].
  simpl. rewrite per_side_suppressed by (apply Hsup, list_elem_of_here).
  apply IH. intros d' Hd'. apply Hsup. now apply list_elem_of_further.
Qed.

(** C4. When the border string of one side parses to a width other than
    [0], a style other than [none] and a colour that resolves, and the other
    sides have none, calling the helper once per side appends exactly one
    rectangle: it owns the element as [ref], spans the box along its side and
    is as thick as the parsed width (for [top]: the box width wide, at
    [y = box.top - thickness]; [left] at [x = box.left - thickness]; [right]
    at [x = box.right]; [bottom] at [y = box.bottom]), and its one fill is the
    solid paint of the resolved colour, at opacity 1 when the colour has no
    alpha. With the width [2] on top, the height is 2 and [y] is
    [box.top - 2]. *)
Theorem per_side_rectangle
    (getRgb : string -> option RGB.t) (rect : DOMRect.t)
    (computedStyle : gmap string string) (el : Element)
    (side : Side) (s width style color : string) (rgb : RGB.t)
    (dirs : list Side) (layers : list LayerNode)
    (Hside : computedStyle !! sideProperty side = Some s)
    (Hmatch : matchBorder s = Some (width, style, color))
    (Hwidth : width <> "0") (Hstyle : style <> "none") (Hcolor : color <> "")
    (Hrgb : getRgb color = Some rgb)
    (Hothers : forall d, d <> side -> suppressed (computedStyle !! sideProperty d))
    (Honce : NoDup dirs) (Hin : side ∈ dirs) :
  exists node,
    decomposeBorders getRgb rect computedStyle el dirs layers = (layers ++ [node])%list /\
    Layer.type node = RECTANGLE /\
    Layer.ref node = Some (ElementNode el) /\
    geometryOf node = Some (sideGeometry side rect (parseFloat width)) /\
    Layer.fills node =
      Some [ {| Paint.type := SOLID;
                Paint.color := (RGB.r rgb, RGB.g rgb, RGB.b rgb);
                Paint.opacity := opacityOf rgb |} ] /\
    (RGB.a rgb = None \/ RGB.a rgb = Some 1 -> opacityOf rgb = 1) /\
    (side = top -> width = "2" ->
       Layer.width node = Some (DOMRect.width rect) /\
       Layer.height node = Some 2 /\
       Layer.y node = Some (DOMRect.top rect - 2)).
Proof.
  exists (borderRectangle side rect width rgb el).
  split; [| repeat split].
  - revert layers. unfold decomposeBorders.
    induction dirs as [| d dirs IH]; intros layers; [now apply elem_of_nil in Hin |].
    apply NoDup_cons in Honce as [Hfresh Honce]. simpl.
    destruct (decide (d = side)) as [-> | Hne].
    + rewrite (per_side_drawn getRgb computedStyle side rect layers el
                 s width style color rgb) by assumption.
      apply (decomposeBorders_suppressed getRgb rect computedStyle el dirs).
      intros d' Hd'. apply Hothers. intros ->. contradiction.
    + rewrite per_side_suppressed by now apply Hothers.
      apply IH; [assumption |].
      apply elem_of_cons in Hin as [-> | Hin]; [contradiction | assumption].
  - apply borderRectangle_geometry.
  - intros [Ha | Ha]; [now apply opacityOf_absent | now apply opacityOf_alpha].
  - subst. reflexivity.
  - subst. reflexivity.
  - subst. reflexivity.
Qed.

(** Scenario C: the one rectangle of a red top border two pixels thick. *)
Lemma per_side_rectangle_witness :
  exists node,
    decomposeBorders sampleGetRgb sampleBox topBorderOnly 7%nat
      [top; left; right; bottom] []
    = [node] /\
    geometryOf node = Some (20, 8, 100, 2) /\
    Layer.fills node =
      Some [ {| Paint.type := SOLID; Paint.color := (1, 0, 0); Paint.opacity := 1 |} ].
Proof.
  destruct (per_side_rectangle sampleGetRgb sampleBox topBorderOnly 7%nat
              top "2px solid red" "2" "solid" "red" (RGB.mk 1 0 0 None)
              [top; left; right; bottom] [])
    as (node & Hrun & _ & _ & Hgeo & Hfills & _).
  - vm_compute; reflexivity.
  - vm_compute; reflexivity.
  - discriminate.
  - discriminate.
  - discriminate.
  - vm_compute; reflexivity.
  - intros d Hd. destruct d; [contradiction | | |]; vm_compute; now right.
  - exact (bool_decide_unpack (NoDup [top; left; right; bottom]) I).
  - exact (bool_decide_unpack (top ∈ [top; left; right; bottom]) I).
  - exists node. split; [exact Hrun |]. split; [| exact Hfills].
    rewrite Hgeo. vm_compute. reflexivity.
Defined.

(** ** The constraint pass: running it *)

Lemma sameDisplay_refl (doc : gmap (Element * string) (string * string)) :
  sameDisplay doc doc.
Proof. intros el. reflexivity. Qed.

Lemma sameDisplay_trans (d1 d2 d3 : gmap (Element * string) (string * string)) :
  sameDisplay d1 d2 -> sameDisplay d2 d3 -> sameDisplay d1 d3.
Proof. intros H12 H23 el. now rewrite H23, H12. Qed.


Lemma inlineDisplay_hidden_other (h : Host) (el e : Element)
    (doc : gmap (Element * string) (string * string)) :
  e <> el -> inlineDisplay (hiddenDoc h el doc) e = inlineDisplay doc e.
Proof.
  intros He. unfold inlineDisplay, hiddenDoc, setProperty, finalDoc.
  destruct (takesPriority h "!important"); [| reflexivity].
  rewrite lookup_insert_ne; [reflexivity | congruence].
Qed.

Lemma inlineDisplay_hidden_same (h : Host) (el : Element)
    (doc : gmap (Element * string) (string * string)) :
  inlineDisplay (hiddenDoc h el doc) el =
  if takesPriority h "!important" then "none" else inlineDisplay doc el.
Proof.
  unfold inlineDisplay, hiddenDoc, setProperty, finalDoc.
  destruct (takesPriority h "!important"); [| reflexivity].
  now rewrite lookup_insert_eq.
Qed.

(** Line 112 puts every inline [display] value back. *)
Lemma restoredDoc_sameDisplay (h : Host) (el : Element)
    (doc : gmap (Element * string) (string * string)) :
  sameDisplay doc (restoredDoc h el doc).
Proof.
  intros e. unfold restoredDoc, setStyleDisplay, finalDoc.
  destruct (truthy (inlineDisplay doc el)) eqn:Ht; unfold inlineDisplay at 1.
  - destruct (decide (e = el)) as [-> | He].
    + now rewrite lookup_insert_eq.
    + rewrite lookup_insert_ne by congruence.
      fold (inlineDisplay (hiddenDoc h el doc) e).
      now apply inlineDisplay_hidden_other.
  - destruct (decide (e = el)) as [-> | He].
    + rewrite lookup_delete_eq. destruct (inlineDisplay doc el); [reflexivity | discriminate].
    + rewrite lookup_delete_ne by congruence.
      fold (inlineDisplay (hiddenDoc h el doc) e).
      now apply inlineDisplay_hidden_other.
Qed.

(** The probe, run: it raises, leaving the element hidden, when the style
    resolution in the hidden document raises; otherwise it returns in the
    restored document. *)
Lemma probe_run (h : Host) (el : Element)
    (doc : gmap (Element * string) (string * string)) :
  probe h el doc =
  if hasStyle h el then
    match resolveStyle h el None (hiddenDoc h el doc) with
    | Some computed =>
        Returned (computed,
                  hasFixedSize (computed (hiddenDoc h el doc) !! "width"),
                  hasFixedSize (computed (hiddenDoc h el doc) !! "height"))
                 (restoredDoc h el doc)
    | None => Thrown (hiddenDoc h el doc)
    end
  else Thrown doc.
Proof.
  unfold probe, bind, getStyleDisplay, setProperty, getComputedStyle, readStyle, ret.
  destruct (hasStyle h el); [| reflexivity].
  change (if takesPriority h "!important"
          then <[(el, "display") := ("none", "!important")]> doc
          else doc)
    with (hiddenDoc h el doc).
  destruct (resolveStyle h el None (hiddenDoc h el doc)); reflexivity.
Qed.

(** The callback on a node with an element and a parent element, run. *)
Lemma constrain_run (h : Host) (child : LayerNode)
    (doc : gmap (Element * string) (string * string)) :
  constrainChild h child doc =
  match Layer.type child with
  | SVG => Returned (Layer.setConstraints child {| horizontal := CENTER; vertical := MIN |}) doc
  | _ =>
      match Layer.ref child with
      | None =>
          Returned (Layer.setConstraints child {| horizontal := SCALE; vertical := MIN |}) doc
      | Some ref =>
          match inspectedElement h ref, inspectedElement h ref ≫= parentElement h with
          | Some el, Some parent =>
              if hasStyle h el then
                match resolveStyle h el None (hiddenDoc h el doc) with
                | None => Thrown (hiddenDoc h el doc)
                | Some computed =>
                    let doc' := restoredDoc h el doc in
                    match resolveStyle h parent None doc', resolveStyle h el None doc' with
                    | Some parentStyle, Some computed' =>
                        Returned
                          (inferConstraints child
                             (hasFixedSize (computed (hiddenDoc h el doc) !! "width"))
                             (hasFixedSize (computed (hiddenDoc h el doc) !! "height"))
                             (computed doc') (computed' doc') (parentStyle doc'))
                          doc'
                    | _, _ => Thrown doc'
                    end
                end
              else Thrown doc
          | _, _ => Returned child doc
          end
      end
  end.
Proof.
  unfold constrainChild.
  destruct (Layer.type child); try reflexivity;
    (destruct (Layer.ref child) as [ref |]; [| reflexivity];
     destruct (inspectedElement h ref) as [e |]; [| reflexivity]; simpl;
     destruct (parentElement h e) as [p |]; [| reflexivity];
     unfold bind at 1; rewrite probe_run;
     destruct (hasStyle h e); [| reflexivity];
     destruct (resolveStyle h e None (hiddenDoc h e doc)) as [c |]; [| reflexivity];
     unfold bind, getComputedStyle, readStyle, ret;
     destruct (resolveStyle h p None (restoredDoc h e doc)); [| reflexivity];
     destruct (resolveStyle h e None (restoredDoc h e doc)); reflexivity).
Qed.

(** [traverse], unfolded once: the callback, then the children in order. *)
Lemma traverse_unfold (cb : LayerNode -> Run LayerNode) (layer : LayerNode) :
  traverse cb layer =
  bind (cb layer) (fun layer' =>
  bind (forEach (traverse cb) (Layer.children layer)) (fun children' =>
  ret (Layer.setChildren layer' children'))).
Proof. destruct layer; reflexivity. Qed.

(** Induction on a layer tree: a property holds of every node once it holds
    of a node whenever it holds of all its children. *)
Lemma LayerNode_tree_ind (P : LayerNode -> Prop) :
  (forall n, Forall P (Layer.children n) -> P n) -> forall n, P n.
Proof.
  intros Hstep. fix IH 1. intros n. apply Hstep.
  destruct n as [? ? ? ? ? ? ? ? ? ? ? ? ? ? ? children]. simpl.
  induction children as [| c cs IHcs]; constructor; [apply IH | exact IHcs].
Qed.

(** ** The restore of the inline display (lines 105 to 112) *)

Lemma displayKept_rebase {A : Type} (h : Host)
    (doc doc' : gmap (Element * string) (string * string)) (o : Outcome A) :
  sameDisplay doc doc' -> displayKept h doc' o -> displayKept h doc o.
Proof.
  intros Hsame [Hkept | (el & doc0 & Ho & Hsame0 & Hraise)].
  - left. now apply sameDisplay_trans with doc'.
  - right. exists el, doc0. repeat split; try assumption.
    now apply sameDisplay_trans with doc'.
Qed.

Lemma displayKept_bind {A B : Type} (h : Host) (m : Run A) (k : A -> Run B)
    (doc : gmap (Element * string) (string * string)) :
  displayKept h doc (m doc) ->
  (forall a doc', displayKept h doc' (k a doc')) ->
  displayKept h doc (bind m k doc).
Proof.
  intros Hm Hk. unfold bind.
  destruct (m doc) as [a doc' | doc'] eqn:Hrun.
  - destruct Hm as [Hsame | (el & doc0 & Ho & _)]; [| discriminate].
    apply displayKept_rebase with doc'; [exact Hsame | apply Hk].
  - destruct Hm as [Hsame | (el & doc0 & Ho & Hsame0 & Hraise)].
    + left. exact Hsame.
    + right. exists el, doc0. injection Ho as ->. repeat split; assumption.
Qed.

Lemma displayKept_forEach {A : Type} (h : Host) (f : A -> Run A) (items : list A) :
  Forall (fun item => forall doc, displayKept h doc (f item doc)) items ->
  forall doc, displayKept h doc (forEach f items doc).
Proof.
  induction 1 as [| item items Hitem _ IH]; intros doc; simpl.
  - left. apply sameDisplay_refl.
  - apply displayKept_bind; [apply Hitem |]. intros item' doc'.
    apply displayKept_bind; [apply IH |]. intros rest' doc''.
    left. apply sameDisplay_refl.
Qed.

(** One node: the document keeps its inline displays unless the probe's own
    style resolution raises. *)
Lemma displayKept_constrainChild (h : Host) (child : LayerNode)
    (doc : gmap (Element * string) (string * string)) :
  displayKept h doc (constrainChild h child doc).
Proof.
  rewrite constrain_run.
  assert (Hhere : forall n : LayerNode, displayKept h doc (Returned n doc))
    by (intros n; left; apply sameDisplay_refl).
  destruct (Layer.type child); try apply Hhere;
    (destruct (Layer.ref child) as [ref |]; [| apply Hhere]);
    (destruct (inspectedElement h ref) as [el |]; [| apply Hhere]); simpl;
    (destruct (parentElement h el) as [parent |]; [| apply Hhere]);
    (destruct (hasStyle h el); [| left; apply sameDisplay_refl]);
    (destruct (resolveStyle h el None (hiddenDoc h el doc)) eqn:Hprobe;
       [| right; exists el, doc;
          split; [reflexivity | split; [apply sameDisplay_refl | exact Hprobe]]]);
    (destruct (resolveStyle h parent None (restoredDoc h el doc));
       [| left; apply restoredDoc_sameDisplay]);
    (destruct (resolveStyle h el None (restoredDoc h el doc));
       left; apply restoredDoc_sameDisplay).
Qed.

Lemma displayKept_traverse (h : Host) (layer : LayerNode) :
  forall doc, displayKept h doc (traverse (constrainChild h) layer doc).
Proof.
  induction layer as [layer IH] using LayerNode_tree_ind. intros doc.
  rewrite traverse_unfold.
  apply displayKept_bind; [apply displayKept_constrainChild |]. intros layer' doc'.
  apply displayKept_bind; [now apply displayKept_forEach |]. intros children' doc''.
  left. apply sameDisplay_refl.
Qed.

Lemma displayKept_addConstraints (h : Host) (layers : list LayerNode)
    (doc : gmap (Element * string) (string * string)) :
  displayKept h doc (addConstraints h layers doc).
Proof.
  apply (displayKept_forEach h (traverse (constrainChild h)) layers).
  apply Forall_forall. intros layer _. apply displayKept_traverse.
Qed.

(** C1, as stated, fails: on a host whose [setProperty] hides the element,
    when the style resolution between the force-hide and the restore raises,
    the pass stops with the element's inline [display] left at [none], where
    it was [block] before. *)
Lemma restore_skipped_counterexample :
  takesPriority failingHost "!important" = true /\
  inlineDisplay blockDoc 1%nat = "block" /\
  exists doc',
    addConstraints failingHost [bareNode FRAME (Some (ElementNode 1%nat)) []] blockDoc
    = Thrown doc' /\
    inlineDisplay doc' 1%nat = "none".
Proof.
  split; [reflexivity |]. split; [reflexivity |].
  exists (hiddenDoc failingHost 1%nat blockDoc). split; vm_compute; reflexivity.
Qed.

(** C1, amended. The pass leaves every element's inline [display] value as
    it found it on every path but one, a failure of any step after the
    restore included. The restore is a statement of its own after the style
    resolution that follows the force-hide: on a host whose [setProperty]
    takes the priority [!important], when that resolution raises, the pass
    stops with the probed element's inline [display] at [none] and every
    other inline [display] as it was. On a host that ignores that priority
    the force-hide does nothing, and every path keeps every value. *)
Theorem display_restored_unless_probe_raises (h : Host) (layers : list LayerNode)
    (doc : gmap (Element * string) (string * string)) :
  let o := addConstraints h layers doc in
  sameDisplay doc (finalDoc o) \/
  exists el doc0,
    o = Thrown (hiddenDoc h el doc0) /\
    sameDisplay doc doc0 /\
    resolveStyle h el None (hiddenDoc h el doc0) = None /\
    takesPriority h "!important" = true /\
    inlineDisplay (finalDoc o) el = "none" /\
    forall e, e <> el -> inlineDisplay (finalDoc o) e = inlineDisplay doc e.
Proof.
  cbv zeta.
  destruct (displayKept_addConstraints h layers doc)
    as [Hsame | (el & doc0 & Ho & Hsame & Hraise)].
  - left. exact Hsame.
  - rewrite Ho. cbn [finalDoc].
    destruct (takesPriority h "!important") eqn:Htakes.
    + right. exists el, doc0. repeat split; try assumption.
      * now rewrite inlineDisplay_hidden_same, Htakes.
      * intros e He. now rewrite inlineDisplay_hidden_other, Hsame.
    + left. intros e. rewrite <- (Hsame e).
      unfold hiddenDoc, setProperty, finalDoc. now rewrite Htakes.
Qed.


(** X24. On a host whose [setProperty] ignores the priority [!important] the
    force-hide never takes place, and no path changes an inline display. *)
Lemma ignored_priority_never_hides (h : Host) (layers : list LayerNode)
    (doc : gmap (Element * string) (string * string)) :
  takesPriority h "!important" = false ->
  sameDisplay doc (finalDoc (addConstraints h layers doc)).
Proof.
  intros Hignored.
  destruct (displayKept_addConstraints h layers doc)
    as [Hsame | (el & doc0 & -> & Hsame & _)]; [exact Hsame |].
  unfold finalDoc, hiddenDoc, setProperty. now rewrite Hignored.
Qed.

(** The strict host ignores the priority of the probe; the run stops at the
    first resolution with the document as it was. *)
Lemma ignored_priority_never_hides_witness :
  sameDisplay styledDoc
    (finalDoc (addConstraints strictHost
                 [bareNode FRAME (Some (ElementNode 1%nat)) []] styledDoc)).
Proof. apply ignored_priority_never_hides. reflexivity. Defined.

(** ** Idempotence of the constraint pass *)







(** What the inference changes of a node: [constraints] and [data]. *)
Lemma inferConstraints_fields (child : LayerNode) (hasFixedWidth hasFixedHeight : bool)
    (margins computed parentStyle : gmap string string) :
  let child' := inferConstraints child hasFixedWidth hasFixedHeight
                  margins computed parentStyle in
  agreeOutside child child' /\
  Layer.children child' = Layer.children child /\
  Layer.constraints child' =
    Some (resolveConstraints (finalFlags (Layer.type child) margins computed parentStyle)) /\
  Layer.data child' = annotated hasFixedWidth hasFixedHeight computed (Layer.data child).
Proof.
  unfold inferConstraints, annotate, annotated, agreeOutside.
  destruct (isInline computed), hasFixedWidth, hasFixedHeight,
    (computed !! "position") as [position |];
    try destruct (String.eqb position "absolute" || String.eqb position "fixed");
    repeat split.
Qed.


(** The callback writes [constraints] and [data] only. *)
Lemma constrainChild_frame (h : Host) (child child' : LayerNode)
    (doc doc' : gmap (Element * string) (string * string)) :
  constrainChild h child doc = Returned child' doc' ->
  agreeOutside child child' /\ Layer.children child' = Layer.children child.
Proof.
  rewrite constrain_run.
  assert (Hsame : agreeOutside child child /\ Layer.children child = Layer.children child)
    by (unfold agreeOutside; repeat split).
  assert (Hset : forall c d,
            Returned (Layer.setConstraints child c) d = Returned child' doc' ->
            agreeOutside child child' /\ Layer.children child' = Layer.children child)
    by (intros c d [= <- _]; exact Hsame).
  assert (Hinfer : forall fw fh m c p d,
            Returned (inferConstraints child fw fh m c p) d = Returned child' doc' ->
            agreeOutside child child' /\ Layer.children child' = Layer.children child).
  { intros fw fh m c p d [= <- _].
    destruct (inferConstraints_fields child fw fh m c p) as (Hout & Hkids & _).
    now split. }
  destruct (Layer.type child).
  5: { apply Hset. }
  all: destruct (Layer.ref child) as [ref |]; [| apply Hset].
  all: destruct (inspectedElement h ref) as [el |]; [| intros [= <- _]; exact Hsame].
  all: cbn [mbind option_bind].
  all: destruct (parentElement h el) as [parent |]; [| intros [= <- _]; exact Hsame].
  all: destruct (hasStyle h el); [| discriminate].
  all: destruct (resolveStyle h el None (hiddenDoc h el doc)); [| discriminate].
  all: cbv zeta.
  all: destruct (resolveStyle h parent None (restoredDoc h el doc)); [| discriminate].
  all: destruct (resolveStyle h el None (restoredDoc h el doc)); [| discriminate].
  all: apply Hinfer.
Qed.







(** What the first run assigns on the sample tree. *)
Lemma sample_tree_constraints :
  exists layers1 doc1,
    addConstraints liveHost [sampleTree] blockDoc = Returned layers1 doc1 /\
    map constraintsIn layers1 =
      [[ Some {| horizontal := MAX; vertical := MIN |};
         Some {| horizontal := MAX; vertical := MIN |};
         Some {| horizontal := CENTER; vertical := MIN |};
         Some {| horizontal := SCALE; vertical := MIN |} ]] /\
    inlineDisplay doc1 1%nat = "block".
Proof. eexists _, _. split; [vm_compute; reflexivity | split; vm_compute; reflexivity]. Qed.

(** ** Further properties of the helpers *)

(** A length the parser returns is written even when it is zero; a string it
    does not understand leaves the corner as it was. *)
Lemma zero_length_is_written :
  let node :=
    setBorderRadii sampleParseUnits
      (declaration [ ("borderTopLeftRadius", "0px"); ("borderTopRightRadius", "4px");
                     ("borderBottomRightRadius", "auto") ])
      (bareNode RECTANGLE None []) in
  Layer.topLeftRadius node = Some 0%float /\
  Layer.topRightRadius node = Some 4%float /\
  Layer.bottomRightRadius node = None /\
  Layer.bottomLeftRadius node = None.
Proof. vm_compute. repeat split; reflexivity. Qed.

(** X1. An SVG node gets horizontal CENTER and vertical MIN whatever the
    document holds, and the document is not touched. *)
Theorem svg_override (h : Host) (child : LayerNode)
    (doc : gmap (Element * string) (string * string)) :
  Layer.type child = SVG ->
  constrainChild h child doc
  = Returned (Layer.setConstraints child {| horizontal := CENTER; vertical := MIN |}) doc.
Proof. intros Hsvg. rewrite constrain_run. now rewrite Hsvg. Qed.

Lemma svg_override_witness :
  constrainChild failingHost (bareNode SVG (Some (ElementNode 1%nat)) []) blockDoc
  = Returned (Layer.setConstraints (bareNode SVG (Some (ElementNode 1%nat)) [])
                {| horizontal := CENTER; vertical := MIN |}) blockDoc.
Proof. apply svg_override. reflexivity. Defined.

(** X2. A node that is not an SVG and has no [ref] gets horizontal SCALE and
    vertical MIN, and the document is not touched. *)
Theorem default_fallback (h : Host) (child : LayerNode)
    (doc : gmap (Element * string) (string * string)) :
  Layer.type child <> SVG ->
  Layer.ref child = None ->
  constrainChild h child doc
  = Returned (Layer.setConstraints child {| horizontal := SCALE; vertical := MIN |}) doc.
Proof.
  intros Hsvg Href. rewrite constrain_run, Href.
  destruct (Layer.type child); [reflexivity .. | contradiction].
Qed.

Lemma default_fallback_witness :
  constrainChild failingHost (bareNode GROUP None []) blockDoc
  = Returned (Layer.setConstraints (bareNode GROUP None [])
                {| horizontal := SCALE; vertical := MIN |}) blockDoc.
Proof. apply default_fallback; [discriminate | reflexivity]. Defined.

(** X3. In shorthand mode a border string that parses to a width other than
    [0], a style other than [none] and a colour that resolves sets the node's
    strokes to the one solid paint of that colour and its stroke weight to the
    parsed width rounded to the nearest integer; no other field changes. *)
Theorem shorthand_sets_stroke
    (getRgb : string -> option RGB.t) (computedStyle : gmap string string)
    (rectNode : LayerNode) (border width style color : string) (rgb : RGB.t) :
  computedStyle !! "border" = Some border ->
  matchBorder border = Some (width, style, color) ->
  width <> "0" -> style <> "none" -> color <> "" ->
  getRgb color = Some rgb ->
  let rectNode' := addStrokesFromBorder getRgb computedStyle rectNode in
  Layer.strokes rectNode' = Some [solidPaint rgb] /\
  Layer.strokeWeight rectNode' = Some (Math_round (parseFloat width)) /\
  sameOutsideStroke rectNode rectNode'.
Proof.
  intros Hb Hm Hw Hs Hc Hrgb. unfold addStrokesFromBorder. rewrite Hb.
  destruct (matchBorder_groups _ _ _ _ Hm) as (Htb & Htw & _).
  rewrite Htb, Hm, (drawable_true _ _ _ Htw Hw Hs Hc), Hrgb.
  unfold sameOutsideStroke. repeat split.
Qed.

(** Scenario D: a border 3.6 pixels wide gets stroke weight 4, and one black
    stroke at opacity 0.5. *)
Lemma shorthand_sets_stroke_witness :
  let rectNode' :=
    addStrokesFromBorder sampleGetRgb
      {[ "border" := "3.6px solid rgba(0, 0, 0, 0.5)" ]} (bareNode RECTANGLE None []) in
  Layer.strokes rectNode' =
    Some [ {| Paint.type := SOLID; Paint.color := (0, 0, 0); Paint.opacity := 0.5 |} ] /\
  Layer.strokeWeight rectNode' = Some 4%float.
Proof.
  destruct (shorthand_sets_stroke sampleGetRgb
              {[ "border" := "3.6px solid rgba(0, 0, 0, 0.5)" ]}
              (bareNode RECTANGLE None [])
              "3.6px solid rgba(0, 0, 0, 0.5)" "3.6" "solid" "rgba(0, 0, 0, 0.5)"
              (RGB.mk 0 0 0 (Some 0.5)))
    as (Hstrokes & Hweight & _).
  - vm_compute; reflexivity.
  - vm_compute; reflexivity.
  - discriminate.
  - discriminate.
  - discriminate.
  - vm_compute; reflexivity.
  - split.
    + rewrite Hstrokes. vm_compute. reflexivity.
    + rewrite Hweight. vm_compute. reflexivity.
Defined.

(** X4. A [box-shadow] that is missing, empty or [none] gives no effect. *)
Theorem no_shadow_no_effect
    (parseBoxShadowStr : string -> BoxShadow.t) (getRgb : string -> option RGB.t)
    (computedStyle : gmap string string) :
  computedStyle !! "boxShadow" = None \/
  computedStyle !! "boxShadow" = Some "" \/
  computedStyle !! "boxShadow" = Some "none" ->
  getShadowEffects parseBoxShadowStr getRgb computedStyle = None.
Proof.
  unfold getShadowEffects. intros [-> | [-> | ->]]; reflexivity.
Qed.

(** Scenario E. *)
Lemma no_shadow_no_effect_witness :
  getShadowEffects sampleParseBoxShadowStr sampleGetRgb {[ "boxShadow" := "none" ]} = None.
Proof.
  apply no_shadow_no_effect. right. right. vm_compute. reflexivity.
Defined.

(** X5. Scenario A: a node that is not a text node, whose element has both
    horizontal margins [auto] and is not inline, under a parent that is not a
    flex container, resolves to horizontal CENTER. *)
Theorem auto_margins_centre
    (child : LayerNode) (hasFixedWidth hasFixedHeight : bool)
    (margins computed parentStyle : gmap string string) :
  Layer.type child <> TEXT ->
  margins !! "marginLeft" = Some "auto" ->
  margins !! "marginRight" = Some "auto" ->
  isInline computed = false ->
  parentStyle !! "display" <> Some "flex" ->
  horizontalOf (inferConstraints child hasFixedWidth hasFixedHeight
                  margins computed parentStyle)
  = Some CENTER.
Proof.
  intros Htext Hl Hr Hinline Hflex.
  unfold horizontalOf, inferConstraints.
  cbn [Layer.constraints Layer.setConstraints fmap option_fmap option_map].
  f_equal. unfold finalFlags. rewrite Hinline.
  unfold parentJustifyContent, parentAlignItems.
  apply propIs_false in Hflex. rewrite Hflex.
  cbn [justifyFlags alignFlags].
  assert (textFlags (Layer.type child) computed (marginFlags margins) = marginFlags margins)
    as -> by (destruct (Layer.type child); try reflexivity; contradiction).
  unfold marginFlags, resolveConstraints. cbn [hasAutoMarginLeft hasAutoMarginRight horizontal].
  apply propIs_true in Hl, Hr. now rewrite Hl, Hr.
Qed.

Lemma auto_margins_centre_witness :
  horizontalOf (inferConstraints (bareNode FRAME (Some (ElementNode 1%nat)) [])
                  false false centredBlock centredBlock blockParent)
  = Some CENTER.
Proof.
  apply auto_margins_centre.
  - discriminate.
  - vm_compute; reflexivity.
  - vm_compute; reflexivity.
  - vm_compute; reflexivity.
  - vm_compute. discriminate.
Defined.

Lemma forEach_related {A : Type} (R : A -> A -> Prop) (f : A -> Run A) (items : list A) :
  Forall (fun item => forall doc item' doc',
            f item doc = Returned item' doc' -> R item item') items ->
  forall doc items' doc',
    forEach f items doc = Returned items' doc' -> Forall2 R items items'.
Proof.
  induction 1 as [| item items Hitem _ IH]; intros doc items' doc' Hrun.
  - injection Hrun as <- _. constructor.
  - simpl in Hrun. unfold bind in Hrun.
    destruct (f item doc) as [item1 d1 |] eqn:Hfirst; [| discriminate].
    destruct (forEach f items d1) as [rest1 d2 |] eqn:Hrest; [| discriminate].
    injection Hrun as <- _. constructor; [now apply (Hitem doc item1 d1) |].
    now apply (IH d1 rest1 d2).
Qed.

Lemma traverse_frame (h : Host) (layer : LayerNode) :
  forall doc layer' doc',
    traverse (constrainChild h) layer doc = Returned layer' doc' ->
    sameButAnnotations layer layer'.
Proof.
  induction layer as [layer IH] using LayerNode_tree_ind.
  intros doc layer' doc' Hrun.
  rewrite traverse_unfold in Hrun. unfold bind, ret in Hrun.
  destruct (constrainChild h layer doc) as [n1 d1 |] eqn:Hnode; [| discriminate].
  destruct (forEach (traverse (constrainChild h)) (Layer.children layer) d1)
    as [cs1 d2 |] eqn:Hkids; [| discriminate].
  injection Hrun as <- _.
  destruct (constrainChild_frame h layer n1 doc d1 Hnode) as [Hout _].
  constructor; [exact Hout |].
  change (Layer.children (Layer.setChildren n1 cs1)) with cs1.
  now apply (forEach_related sameButAnnotations _ _ IH d1 cs1 d2).
Qed.

(** X6. A pass that returns has kept the shape of every tree and, node by
    node, every field but [constraints] and [data]. *)
Theorem pass_writes_annotations_only (h : Host) (layers layers' : list LayerNode)
    (doc doc' : gmap (Element * string) (string * string)) :
  addConstraints h layers doc = Returned layers' doc' ->
  Forall2 sameButAnnotations layers layers'.
Proof.
  apply (forEach_related sameButAnnotations).
  apply Forall_forall. intros layer _. apply traverse_frame.
Qed.

Lemma pass_writes_annotations_only_witness :
  exists layers1 doc1,
    addConstraints liveHost [sampleTree] blockDoc = Returned layers1 doc1 /\
    Forall2 sameButAnnotations [sampleTree] layers1.
Proof.
  assert (Hfirst : exists layers1 doc1,
             addConstraints liveHost [sampleTree] blockDoc = Returned layers1 doc1)
    by (vm_compute; eauto).
  destruct Hfirst as (layers1 & doc1 & Hfirst).
  exists layers1, doc1. split; [exact Hfirst |].
  exact (pass_writes_annotations_only liveHost [sampleTree] layers1 blockDoc doc1 Hfirst).
Defined.

(** * Further properties *)

(** ** The style snapshot, entry by entry *)

Lemma pick_lookup_from (defaultsTable object : gmap string string)
    (paths : list string) (path : string) :
  forall acc : gmap string string,
    foldl
      (fun newObject p =>
         match object !! p with
         | Some value =>
             if truthy value && negb (bool_decide (Some value = defaultsTable !! p))
             then <[p := value]> newObject
             else newObject
         | None => newObject
         end) acc paths !! path
    = if bool_decide (path ∈ paths) && kept defaultsTable object path
      then object !! path
      else acc !! path.
Proof.
  induction paths as [| p paths IH]; intros acc; [reflexivity |].
  simpl. rewrite IH. unfold kept.
  destruct (decide (path = p)) as [-> | Hne].
  - rewrite (bool_decide_eq_true_2 (p ∈ p :: paths)) by apply list_elem_of_here.
    destruct (object !! p) as [value |] eqn:Hobj.
    + destruct (truthy value && negb (bool_decide (Some value = defaultsTable !! p)));
        rewrite ?andb_true_r, ?andb_false_r; cbn [andb];
        [| reflexivity].
      destruct (bool_decide (p ∈ paths)); [reflexivity | apply lookup_insert_eq].
    + now rewrite !andb_false_r.
  - assert (bool_decide (path ∈ p :: paths) = bool_decide (path ∈ paths)) as ->.
    { apply bool_decide_ext. rewrite elem_of_cons. tauto. }
    destruct (bool_decide (path ∈ paths) && _); [reflexivity |].
    destruct (object !! p) as [value |]; [| reflexivity].
    destruct (truthy value && _); [| reflexivity].
    now apply lookup_insert_ne.
Qed.

(** X7. The snapshot of a host element holds exactly the allow-listed
    properties whose resolved value is not empty and differs from the
    default, each with its resolved value. *)
Theorem snapshot_entries
    (h : Host) (element : Element) (pseudo : option string)
    (doc : gmap (Element * string) (string * string)) (decl : ComputedStyle)
    (Hhost : classOf h element <> OtherElement)
    (Hresolved : resolveStyle h element pseudo doc = Some decl) :
  exists applied,
    getAppliedComputedStyles h element pseudo doc = Returned applied doc /\
    forall path value,
      applied !! path = Some value <->
      path ∈ allowList /\ decl doc !! path = Some value /\ value <> "" /\
      defaults (decl doc !! "color") !! path <> Some value.
Proof.
  exists (pick (defaults (decl doc !! "color")) (decl doc) allowList). split.
  - unfold getAppliedComputedStyles, bind, getComputedStyle, readStyle, ret.
    destruct (classOf h element); try contradiction; now rewrite Hresolved.
  - intros path value. unfold pick. rewrite pick_lookup_from, lookup_empty. unfold kept.
    destruct (bool_decide_reflect (path ∈ allowList)) as [Hin | Hout]; cbn [andb].
    + destruct (decl doc !! path) as [v |] eqn:Hv.
      * destruct (truthy v) eqn:Ht; cbn [andb].
        -- destruct (bool_decide_reflect (Some v = defaults (decl doc !! "color") !! path))
             as [Heq | Hneq]; cbn [negb].
           ++ split; [discriminate |]. intros (_ & [= <-] & _ & Hd). now destruct Hd.
           ++ split.
              ** intros [= <-]. repeat split; try assumption.
                 --- now apply truthy_nonempty.
                 --- intros Hd. apply Hneq. now rewrite Hd.
              ** now intros (_ & [= <-] & _).
        -- split; [discriminate |]. intros (_ & [= <-] & Hv' & _).
           apply truthy_nonempty in Hv'. congruence.
      * split; [discriminate |]. intros (_ & Hc & _). discriminate.
    + split; [discriminate |]. intros (Hin & _). contradiction.
Qed.

(** An element whose opacity alone is off its baseline: one entry. *)
Lemma snapshot_entries_witness :
  exists applied,
    getAppliedComputedStyles fadedHost 1%nat None ∅ = Returned applied ∅ /\
    applied !! "opacity" = Some "0.5" /\
    applied !! "borderRadius" = None /\
    applied !! "display" = None.
Proof.
  destruct (snapshot_entries fadedHost 1%nat None ∅ (fun _ => fadedStyles))
    as (applied & Hrun & Hentries).
  - discriminate.
  - reflexivity.
  - exists applied. split; [exact Hrun |]. split; [| split].
    + apply Hentries. split; [exact (bool_decide_unpack ("opacity" ∈ allowList) I) |].
      split; [vm_compute; reflexivity |]. split; [discriminate |].
      vm_compute. discriminate.
    + destruct (applied !! "borderRadius") as [v |] eqn:Hv; [| reflexivity].
      apply Hentries in Hv as (_ & Hres & _ & Hdef). exfalso. apply Hdef.
      rewrite <- Hres. vm_compute. reflexivity.
    + destruct (applied !! "display") as [v |] eqn:Hv; [| reflexivity].
      apply Hentries in Hv as (Hin & _). exfalso.
      revert Hin. apply (bool_decide_eq_false_1 ("display" ∈ allowList)). reflexivity.
Defined.

(** X8. The snapshot reader never writes to the document, and raises exactly
    when the element is a host element whose style resolution raises: an
    element of another class gets the empty mapping without any resolution. *)
Theorem snapshot_effects
    (h : Host) (element : Element) (pseudo : option string)
    (doc : gmap (Element * string) (string * string)) :
  let o := getAppliedComputedStyles h element pseudo doc in
  finalDoc o = doc /\
  (o = Thrown doc <->
   classOf h element <> OtherElement /\ resolveStyle h element pseudo doc = None) /\
  (classOf h element = OtherElement -> o = Returned ∅ doc).
Proof.
  unfold getAppliedComputedStyles, bind, getComputedStyle, readStyle, ret.
  destruct (classOf h element);
    try (destruct (resolveStyle h element pseudo doc); cbn [finalDoc];
         repeat split; try discriminate; try reflexivity;
         try (intros [_ Hn]; discriminate);
         try (intros _; split; [discriminate | reflexivity]);
         intros; discriminate).
  cbn [finalDoc]. repeat split; try discriminate; try reflexivity.
  intros [Hc _]. now destruct Hc.
Qed.

(** ** The annotations written beside the constraints (lines 121 to 153) *)

Lemma dataLookup_written (key value k : string) (data : option (gmap string string)) :
  dataLookup (written key value data) k =
  if decide (key = k) then Some value else dataLookup data k.
Proof.
  unfold dataLookup, written. cbn [mbind option_bind].
  rewrite lookup_insert. case_decide; [reflexivity |].
  destruct data as [m |]; [reflexivity | apply lookup_empty].
Qed.

Ltac lookup_written :=
  rewrite ?dataLookup_written; repeat case_decide; congruence.

(** X9. After the inference, [data.widthType] is [shrink] for an inline
    element, else [fixed] for a fixed width, else what it was; [heightType]
    is [fixed] for a fixed height, else what it was; [position] is the
    resolved position when that is [absolute] or [fixed], else what it was;
    every other key is what it was; and no [data] object is created when
    there is nothing to write. *)
Theorem annotations_written
    (child : LayerNode) (hasFixedWidth hasFixedHeight : bool)
    (margins computed parentStyle : gmap string string) :
  let before := Layer.data child in
  let after :=
    Layer.data (inferConstraints child hasFixedWidth hasFixedHeight
                  margins computed parentStyle) in
  let positioned :=
    match computed !! "position" with
    | Some p => String.eqb p "absolute" || String.eqb p "fixed"
    | None => false
    end in
  dataLookup after "widthType" =
    (if isInline computed then Some "shrink"
     else if hasFixedWidth then Some "fixed"
     else dataLookup before "widthType") /\
  dataLookup after "heightType" =
    (if hasFixedHeight then Some "fixed" else dataLookup before "heightType") /\
  dataLookup after "position" =
    (if positioned then computed !! "position" else dataLookup before "position") /\
  (forall key, key <> "widthType" -> key <> "heightType" -> key <> "position" ->
     dataLookup after key = dataLookup before key) /\
  (isInline computed = false -> hasFixedWidth = false -> hasFixedHeight = false ->
   positioned = false -> after = before).
Proof.
  cbv zeta.
  destruct (inferConstraints_fields child hasFixedWidth hasFixedHeight
              margins computed parentStyle) as (_ & _ & _ & ->).
  unfold annotated.
  destruct (isInline computed), hasFixedWidth, hasFixedHeight,
    (computed !! "position") as [position |];
    try destruct (String.eqb position "absolute" || String.eqb position "fixed");
    (split; [lookup_written | split; [lookup_written | split; [lookup_written |
       split; [intros key H1 H2 H3; lookup_written | intros; congruence]]]]).
Qed.

(** ** Which rule decides an axis (lines 132 to 199) *)





(** X11. A text node's own resolved [text-align] decides its horizontal
    constraint, whatever its margins and its parent: [center] gives CENTER
    and [right] gives MAX. *)
Theorem text_align_decides_horizontal
    (child : LayerNode) (hasFixedWidth hasFixedHeight : bool)
    (margins computed parentStyle : gmap string string)
    (Htext : Layer.type child = TEXT) :
  let child' := inferConstraints child hasFixedWidth hasFixedHeight
                  margins computed parentStyle in
  (computed !! "textAlign" = Some "center" -> horizontalOf child' = Some CENTER) /\
  (computed !! "textAlign" = Some "right" -> horizontalOf child' = Some MAX).
Proof.
  cbv zeta.
  destruct (inferConstraints_fields child hasFixedWidth hasFixedHeight
              margins computed parentStyle) as (_ & _ & Hcons & _).
  unfold horizontalOf. rewrite Hcons, Htext. cbn [fmap option_fmap option_map].
  unfold finalFlags, textFlags. split; intros Halign.
  - apply propIs_true in Halign. now rewrite Halign.
  - assert (propIs computed "textAlign" "center" = false) as ->
      by (apply propIs_false; rewrite Halign; discriminate).
    apply propIs_true in Halign. now rewrite Halign.
Qed.

Lemma text_align_decides_horizontal_witness :
  horizontalOf (inferConstraints (bareNode TEXT (Some (TextNode (Some 1%nat))) [])
                  false false centredBlock centredText flexEndParent)
  = Some CENTER.
Proof.
  apply (text_align_decides_horizontal
           (bareNode TEXT (Some (TextNode (Some 1%nat))) []) false false
           centredBlock centredText flexEndParent).
  - reflexivity.
  - vm_compute; reflexivity.
Defined.

(** ** What the pass writes, node by node *)

Lemma resolveConstraints_range (f : Flags) : writtenRange (resolveConstraints f).
Proof.
  unfold writtenRange, resolveConstraints. cbn [horizontal vertical].
  destruct (hasAutoMarginLeft f), (hasAutoMarginRight f),
    (hasAutoMarginTop f), (hasAutoMarginBottom f); cbn; tauto.
Qed.

(** X12. Whatever constraints the callback writes, the horizontal one is
    CENTER, MAX or SCALE and the vertical one CENTER, MAX or MIN; the one
    node it leaves as it found it is a node whose [ref] gives no element with
    a parent element. *)
Theorem written_constraints_in_range (h : Host) (child child' : LayerNode)
    (doc doc' : gmap (Element * string) (string * string))
    (Hrun : constrainChild h child doc = Returned child' doc') :
  (exists c, Layer.constraints child' = Some c /\ writtenRange c) \/
  (child' = child /\ doc' = doc /\ Layer.type child <> SVG /\
   exists ref, Layer.ref child = Some ref /\
               inspectedElement h ref ≫= parentElement h = None).
Proof.
  rewrite constrain_run in Hrun.
  assert (Hfixed : forall hz vt,
            (hz = CENTER \/ hz = MAX \/ hz = SCALE) ->
            (vt = CENTER \/ vt = MAX \/ vt = MIN) ->
            writtenRange {| horizontal := hz; vertical := vt |})
    by (intros hz vt Hh Hv; split; assumption).
  destruct (Layer.type child) eqn:Htype.
  5: { injection Hrun as <- _. left. eexists. split; [reflexivity |].
       apply Hfixed; tauto. }
  all: destruct (Layer.ref child) as [ref |] eqn:Href;
    [| injection Hrun as <- _; left; eexists; split; [reflexivity |];
       apply Hfixed; tauto].
  all: destruct (inspectedElement h ref) as [el |] eqn:Hel;
    [| injection Hrun as <- <-; right; repeat split; try discriminate;
       exists ref; split; [reflexivity | now rewrite Hel]].
  all: cbn [mbind option_bind] in Hrun |- *.
  all: destruct (parentElement h el) as [parent |] eqn:Hparent;
    [| injection Hrun as <- <-; right; repeat split; try discriminate;
       exists ref; split; [reflexivity | now rewrite Hel]].
  all: destruct (hasStyle h el); [| discriminate].
  all: destruct (resolveStyle h el None (hiddenDoc h el doc)); [| discriminate].
  all: cbv zeta in Hrun.
  all: destruct (resolveStyle h parent None (restoredDoc h el doc)); [| discriminate].
  all: destruct (resolveStyle h el None (restoredDoc h el doc)); [| discriminate].
  all: injection Hrun as <- _; left; eexists; split;
    [ apply (inferConstraints_fields child) | apply resolveConstraints_range ].
Qed.

Lemma written_constraints_in_range_witness :
  exists child' doc',
    constrainChild liveHost (bareNode FRAME (Some (ElementNode 2%nat)) []) blockDoc
    = Returned child' doc' /\
    exists c, Layer.constraints child' = Some c /\ writtenRange c.
Proof.
  assert (Hrun : exists child' doc',
             constrainChild liveHost (bareNode FRAME (Some (ElementNode 2%nat)) []) blockDoc
             = Returned child' doc')
    by (vm_compute; eauto).
  destruct Hrun as (child' & doc' & Hrun).
  exists child', doc'. split; [exact Hrun |].
  destruct (written_constraints_in_range liveHost _ child' blockDoc doc' Hrun)
    as [Hrange | (_ & _ & _ & ref & Href & Hnone)]; [exact Hrange |].
  exfalso. injection Href as <-. revert Hnone. vm_compute. discriminate.
Defined.

(** ** The pass over whole trees *)

Lemma everyNode_impl (P Q : LayerNode -> Prop) :
  (forall n, P n -> Q n) -> forall n, everyNode P n -> everyNode Q n.
Proof.
  intros Himpl n. induction n as [n IH] using LayerNode_tree_ind.
  intros Hevery. inversion Hevery as [n' Hhere Hbelow Heq]; subst n'.
  constructor; [now apply Himpl |].
  induction (Layer.children n) as [| c cs IHcs]; [constructor |].
  apply Forall_cons in IH as [IHc IH]. apply Forall_cons in Hbelow as [Hc Hbelow].
  constructor; [now apply IHc | now apply IHcs].
Qed.

(** What the callback establishes of each node holds of every node of the
    tree [traverse] returns, when it does not depend on the children. *)
Lemma traverse_establishes (cb : LayerNode -> Run LayerNode) (P : LayerNode -> Prop) :
  (forall n doc n' doc', cb n doc = Returned n' doc' -> P n') ->
  (forall n cs, P n -> P (Layer.setChildren n cs)) ->
  forall layer doc layer' doc',
    traverse cb layer doc = Returned layer' doc' -> everyNode P layer'.
Proof.
  intros Hcb Hkids layer.
  induction layer as [layer IH] using LayerNode_tree_ind.
  intros doc layer' doc' Hrun.
  rewrite traverse_unfold in Hrun. unfold bind, ret in Hrun.
  destruct (cb layer doc) as [n1 d1 |] eqn:Hnode; [| discriminate].
  destruct (forEach (traverse cb) (Layer.children layer) d1)
    as [cs1 d2 |] eqn:Hrest; [| discriminate].
  injection Hrun as <- _.
  constructor; [apply Hkids; now apply (Hcb layer doc n1 d1) |].
  change (Layer.children (Layer.setChildren n1 cs1)) with cs1.
  clear Hnode. revert d1 cs1 d2 Hrest.
  induction IH as [| c cs Hc _ IHcs]; intros d1 cs1 d2 Hrest.
  - injection Hrest as <- _. constructor.
  - simpl in Hrest. unfold bind, ret in Hrest.
    destruct (traverse cb c d1) as [c' dc |] eqn:Hone; [| discriminate].
    destruct (forEach (traverse cb) cs dc) as [cs' dcs |] eqn:Hmore; [| discriminate].
    injection Hrest as <- _. constructor; [now apply (Hc d1 c' dc) |].
    now apply (IHcs dc cs' dcs).
Qed.

(** X13. After a pass that returns, every SVG node of the forest, at any
    depth, carries horizontal CENTER and vertical MIN, and every other node
    without [ref] carries horizontal SCALE and vertical MIN. *)
Theorem every_node_decided_by_kind (h : Host) (layers layers' : list LayerNode)
    (doc doc' : gmap (Element * string) (string * string))
    (Hrun : addConstraints h layers doc = Returned layers' doc') :
  Forall (everyNode decidedByKind) layers'.
Proof.
  assert (Hnode : forall n d n' d',
            constrainChild h n d = Returned n' d' -> decidedByKind n').
  { intros n d n' d' Hn.
    destruct (constrainChild_frame h n n' d d' Hn) as [(Hty & Hrf & _) _].
    rewrite constrain_run in Hn. unfold decidedByKind. rewrite Hty, Hrf.
    destruct (Layer.type n) eqn:Htype.
    5: { injection Hn as <- _. split; [reflexivity | intros Hne; now destruct Hne]. }
    all: split; [discriminate | intros _ Href; rewrite Href in Hn;
                 injection Hn as <- _; reflexivity]. }
  revert doc layers' doc' Hrun. unfold addConstraints.
  induction layers as [| layer layers IH]; intros doc layers' doc' Hrun.
  - injection Hrun as <- _. constructor.
  - simpl in Hrun. unfold bind, ret in Hrun.
    destruct (traverse (constrainChild h) layer doc) as [l1 d1 |] eqn:Hone;
      [| discriminate].
    destruct (forEach (traverse (constrainChild h)) layers d1) as [ls d2 |] eqn:Hmore;
      [| discriminate].
    injection Hrun as <- _. constructor; [| now apply (IH d1 ls d2)].
    apply (traverse_establishes (constrainChild h) decidedByKind Hnode) with layer doc d1;
      [| exact Hone].
    intros n cs Hn. exact Hn.
Qed.

Lemma every_node_decided_by_kind_witness :
  exists layers1 doc1,
    addConstraints liveHost [sampleTree] blockDoc = Returned layers1 doc1 /\
    Forall (everyNode decidedByKind) layers1.
Proof.
  assert (Hfirst : exists layers1 doc1,
             addConstraints liveHost [sampleTree] blockDoc = Returned layers1 doc1)
    by (vm_compute; eauto).
  destruct Hfirst as (layers1 & doc1 & Hfirst).
  exists layers1, doc1. split; [exact Hfirst |].
  exact (every_node_decided_by_kind liveHost [sampleTree] layers1 blockDoc doc1 Hfirst).
Defined.

(** When every node of a tree makes the callback return, in a document
    related to the one it started in, so does the traversal of the tree. *)
Lemma traverse_returns (cb : LayerNode -> Run LayerNode)
    (I : gmap (Element * string) (string * string) ->
         gmap (Element * string) (string * string) -> Prop) :
  (forall d, I d d) -> (forall d1 d2 d3, I d1 d2 -> I d2 d3 -> I d1 d3) ->
  forall layer,
    everyNode (fun n => forall doc, exists n' doc',
                   cb n doc = Returned n' doc' /\ I doc doc') layer ->
    forall doc, exists layer' doc',
      traverse cb layer doc = Returned layer' doc' /\ I doc doc'.
Proof.
  intros Hrefl Htrans layer.
  induction layer as [layer IH] using LayerNode_tree_ind.
  intros Hevery doc. inversion Hevery as [n Hhere Hbelow Heq]; subst n.
  destruct (Hhere doc) as (n1 & d1 & Hnode & Hd1).
  assert (Hkids : forall d, exists cs' d',
             forEach (traverse cb) (Layer.children layer) d = Returned cs' d' /\ I d d').
  { clear Hnode Hhere Hevery.
    induction (Layer.children layer) as [| c cs IHcs]; intros d.
    - exists [], d. split; [reflexivity | apply Hrefl].
    - apply Forall_cons in IH as [IHc IH]. apply Forall_cons in Hbelow as [Hc Hbelow].
      destruct (IHc Hc d) as (c' & dc & Hone & Hdc).
      destruct (IHcs IH Hbelow dc) as (cs' & dcs & Hmore & Hdcs).
      exists (c' :: cs'), dcs. split; [| now apply Htrans with dc].
      simpl. unfold bind, ret. now rewrite Hone, Hmore. }
  destruct (Hkids d1) as (cs' & d2 & Hrest & Hd2).
  exists (Layer.setChildren n1 cs'), d2. split; [| now apply Htrans with d1].
  rewrite traverse_unfold. unfold bind, ret. now rewrite Hnode, Hrest.
Qed.

Lemma forEach_returns {A : Type} (f : A -> Run A)
    (I : gmap (Element * string) (string * string) ->
         gmap (Element * string) (string * string) -> Prop) (items : list A) :
  (forall d, I d d) -> (forall d1 d2 d3, I d1 d2 -> I d2 d3 -> I d1 d3) ->
  Forall (fun item => forall doc, exists item' doc',
              f item doc = Returned item' doc' /\ I doc doc') items ->
  forall doc, exists items' doc',
    forEach f items doc = Returned items' doc' /\ I doc doc'.
Proof.
  intros Hrefl Htrans. induction 1 as [| item items Hitem _ IH]; intros doc.
  - exists [], doc. split; [reflexivity | apply Hrefl].
  - destruct (Hitem doc) as (i' & d1 & Hone & Hd1).
    destruct (IH d1) as (is' & d2 & Hmore & Hd2).
    exists (i' :: is'), d2. split; [| now apply Htrans with d1].
    simpl. unfold bind, ret. now rewrite Hone, Hmore.
Qed.

(** X15. A forest all of whose nodes are SVG nodes or have no [ref] is
    processed without consulting the host: the pass returns, in the very
    document it started in, also on a host whose every resolution raises. *)
Theorem pass_without_elements_is_pure (h : Host) (layers : list LayerNode)
    (doc : gmap (Element * string) (string * string))
    (Hkinds : Forall (everyNode (fun n => Layer.type n = SVG \/ Layer.ref n = None)) layers) :
  exists layers', addConstraints h layers doc = Returned layers' doc.
Proof.
  destruct (forEach_returns (traverse (constrainChild h)) eq layers)
    with (doc := doc) as (layers' & doc' & Hrun & <-);
    [reflexivity | intros; congruence | | eauto].
  apply Forall_forall. intros layer Hin.
  apply (traverse_returns (constrainChild h) eq); [reflexivity | intros; congruence |].
  rewrite Forall_forall in Hkinds. specialize (Hkinds layer Hin).
  revert Hkinds. apply everyNode_impl. intros n Hn d. rewrite constrain_run.
  destruct Hn as [Hsvg | Href].
  - rewrite Hsvg. eexists _, _. split; reflexivity.
  - rewrite Href. destruct (Layer.type n); eexists _, _; split; reflexivity.
Qed.

Lemma pass_without_elements_is_pure_witness :
  exists layers',
    addConstraints failingHost
      [bareNode GROUP None [bareNode SVG (Some (ElementNode 1%nat)) []]] blockDoc
    = Returned layers' blockDoc.
Proof.
  apply pass_without_elements_is_pure.
  apply Forall_cons_2; [| apply Forall_nil_2].
  apply everyNode_here; [now right |].
  apply Forall_cons_2; [| apply Forall_nil_2].
  apply everyNode_here; [now left | apply Forall_nil_2].
Defined.

(** ** What the pass leaves of the document *)

Lemma sameOtherProperties_refl (doc : gmap (Element * string) (string * string)) :
  sameOtherProperties doc doc.
Proof. intros el name _. reflexivity. Qed.

Lemma sameOtherProperties_trans (d1 d2 d3 : gmap (Element * string) (string * string)) :
  sameOtherProperties d1 d2 -> sameOtherProperties d2 d3 -> sameOtherProperties d1 d3.
Proof. intros H12 H23 el name Hname. now rewrite H23, H12. Qed.

Lemma hiddenDoc_otherProperties (h : Host) (el : Element)
    (doc : gmap (Element * string) (string * string)) :
  sameOtherProperties doc (hiddenDoc h el doc).
Proof.
  intros e name Hname. unfold hiddenDoc, setProperty, finalDoc.
  destruct (takesPriority h "!important"); [| reflexivity].
  apply lookup_insert_ne. congruence.
Qed.

Lemma restoredDoc_otherProperties (h : Host) (el : Element)
    (doc : gmap (Element * string) (string * string)) :
  sameOtherProperties doc (restoredDoc h el doc).
Proof.
  apply sameOtherProperties_trans with (hiddenDoc h el doc);
    [apply hiddenDoc_otherProperties |].
  intros e name Hname. unfold restoredDoc, setStyleDisplay, finalDoc.
  destruct (truthy (inlineDisplay doc el)).
  - apply lookup_insert_ne. congruence.
  - apply lookup_delete_ne. congruence.
Qed.

(** A relation between documents that each step keeps is kept by a
    sequence, whether it returns or raises. *)
Lemma finalDoc_bind {A B : Type}
    (I : gmap (Element * string) (string * string) ->
         gmap (Element * string) (string * string) -> Prop)
    (m : Run A) (k : A -> Run B) (doc : gmap (Element * string) (string * string)) :
  (forall d1 d2 d3, I d1 d2 -> I d2 d3 -> I d1 d3) ->
  I doc (finalDoc (m doc)) ->
  (forall a d, I d (finalDoc (k a d))) ->
  I doc (finalDoc (bind m k doc)).
Proof.
  intros Htrans Hm Hk. unfold bind.
  destruct (m doc) as [a d |]; [| exact Hm].
  apply Htrans with d; [exact Hm | apply Hk].
Qed.

Lemma finalDoc_forEach {A : Type}
    (I : gmap (Element * string) (string * string) ->
         gmap (Element * string) (string * string) -> Prop)
    (f : A -> Run A) (items : list A) :
  (forall d, I d d) -> (forall d1 d2 d3, I d1 d2 -> I d2 d3 -> I d1 d3) ->
  Forall (fun item => forall doc, I doc (finalDoc (f item doc))) items ->
  forall doc, I doc (finalDoc (forEach f items doc)).
Proof.
  intros Hrefl Htrans. induction 1 as [| item items Hitem _ IH]; intros doc; simpl.
  - apply Hrefl.
  - apply finalDoc_bind; [exact Htrans | apply Hitem |]. intros item' d.
    apply finalDoc_bind; [exact Htrans | apply IH |]. intros rest' d'. apply Hrefl.
Qed.

Lemma finalDoc_traverse
    (I : gmap (Element * string) (string * string) ->
         gmap (Element * string) (string * string) -> Prop)
    (cb : LayerNode -> Run LayerNode) :
  (forall d, I d d) -> (forall d1 d2 d3, I d1 d2 -> I d2 d3 -> I d1 d3) ->
  (forall n doc, I doc (finalDoc (cb n doc))) ->
  forall layer doc, I doc (finalDoc (traverse cb layer doc)).
Proof.
  intros Hrefl Htrans Hcb layer.
  induction layer as [layer IH] using LayerNode_tree_ind. intros doc.
  rewrite traverse_unfold.
  apply finalDoc_bind; [exact Htrans | apply Hcb |]. intros n d.
  apply finalDoc_bind; [exact Htrans | now apply finalDoc_forEach |].
  intros cs d'. apply Hrefl.
Qed.

(** X16. On every path, returning or raising, the pass leaves every inline
    declaration other than [display] as it found it, for every element. *)
Theorem pass_touches_display_only (h : Host) (layers : list LayerNode)
    (doc : gmap (Element * string) (string * string)) :
  sameOtherProperties doc (finalDoc (addConstraints h layers doc)).
Proof.
  apply (finalDoc_forEach sameOtherProperties (traverse (constrainChild h)) layers);
    [apply sameOtherProperties_refl | apply sameOtherProperties_trans |].
  apply Forall_forall. intros layer _.
  apply (finalDoc_traverse sameOtherProperties (constrainChild h));
    [apply sameOtherProperties_refl | apply sameOtherProperties_trans |].
  intros n d. rewrite constrain_run.
  destruct (Layer.type n); try apply sameOtherProperties_refl;
    (destruct (Layer.ref n) as [ref |]; [| apply sameOtherProperties_refl]);
    (destruct (inspectedElement h ref) as [el |]; [| apply sameOtherProperties_refl]);
    cbn [mbind option_bind];
    (destruct (parentElement h el) as [parent |]; [| apply sameOtherProperties_refl]);
    (destruct (hasStyle h el); [| apply sameOtherProperties_refl]);
    (destruct (resolveStyle h el None (hiddenDoc h el d));
       [| apply hiddenDoc_otherProperties]);
    cbv zeta;
    (destruct (resolveStyle h parent None (restoredDoc h el d));
       [| apply restoredDoc_otherProperties]);
    (destruct (resolveStyle h el None (restoredDoc h el d));
       apply restoredDoc_otherProperties).
Qed.

(** An element without a [style] object stops the callback at line 105,
    before anything is written. *)
Lemma missing_style_raises (h : Host) (child : LayerNode) (ref : DomNode)
    (el parent : Element) (doc : gmap (Element * string) (string * string)) :
  Layer.type child <> SVG -> Layer.ref child = Some ref ->
  inspectedElement h ref = Some el -> parentElement h el = Some parent ->
  hasStyle h el = false ->
  constrainChild h child doc = Thrown doc.
Proof.
  intros Hsvg Href Hel Hparent Hstyle. rewrite constrain_run, Href, Hel.
  cbn [mbind option_bind]. rewrite Hparent, Hstyle.
  destruct (Layer.type child); try reflexivity. contradiction.
Qed.

(** A text node inside such an element: the pass stops in the document as
    it was. *)
Example missing_style_stops_the_pass :
  addConstraints foreignHost [bareNode TEXT (Some (TextNode (Some 1%nat))) []] styledDoc
  = Thrown styledDoc.
Proof. reflexivity. Qed.

(** ** The border helpers, composed *)

Lemma per_side_step
    (getRgb : string -> option RGB.t) (dir : Side) (rect : DOMRect.t)
    (computedStyle : gmap string string) (layers : list LayerNode) (el : Element) :
  exists added,
    addStrokesFromIndividualBorders getRgb dir rect computedStyle layers el
    = (layers ++ added)%list /\
    (length added <= 1)%nat /\ Forall (borderOf el) added.
Proof.
  unfold addStrokesFromIndividualBorders.
  assert (Hnone : exists added, layers = (layers ++ added)%list /\
                    (length added <= 1)%nat /\ Forall (borderOf el) added)
    by (exists []; rewrite app_nil_r; repeat split; [simpl; lia | constructor]).
  destruct (computedStyle !! _) as [s |]; [| exact Hnone].
  destruct (truthy s); [| exact Hnone].
  destruct (matchBorder s) as [[[w t] c] |]; [| exact Hnone].
  destruct (drawable w t c); [| exact Hnone].
  destruct (getRgb c) as [rgb |]; [| exact Hnone].
  eexists [_]. split; [reflexivity |]. split; [simpl; lia |].
  apply Forall_cons_2; [| apply Forall_nil_2]. split; reflexivity.
Qed.

(** X17. Called once for each side of a list, the per-side helper keeps the
    layers it was given as a prefix and appends at most one node per call,
    each a RECTANGLE whose [ref] is the owning element: at most four for the
    four sides. *)
Theorem decompose_appends_rectangles
    (getRgb : string -> option RGB.t) (rect : DOMRect.t)
    (computedStyle : gmap string string) (el : Element)
    (dirs : list Side) (layers : list LayerNode) :
  exists added,
    decomposeBorders getRgb rect computedStyle el dirs layers = (layers ++ added)%list /\
    (length added <= length dirs)%nat /\
    Forall (borderOf el) added.
Proof.
  unfold decomposeBorders. revert layers.
  induction dirs as [| dir dirs IH]; intros layers.
  - exists []. rewrite app_nil_r. repeat split; [simpl; lia | constructor].
  - simpl.
    destruct (per_side_step getRgb dir rect computedStyle layers el)
      as (first & -> & Hlen1 & Hall1).
    destruct (IH (layers ++ first)%list) as (more & -> & Hlen & Hall).
    exists (first ++ more)%list. rewrite <- app_assoc. split; [reflexivity |].
    split; [rewrite length_app; simpl; lia | now apply Forall_app].
Qed.

(** X18. The shorthand helper is idempotent: a second call with the same
    styles leaves the node as the first call left it. *)
Theorem shorthand_idempotent
    (getRgb : string -> option RGB.t) (computedStyle : gmap string string)
    (rectNode : LayerNode) :
  addStrokesFromBorder getRgb computedStyle
    (addStrokesFromBorder getRgb computedStyle rectNode)
  = addStrokesFromBorder getRgb computedStyle rectNode.
Proof.
  unfold addStrokesFromBorder.
  destruct (computedStyle !! "border") as [s |]; [| reflexivity].
  destruct (truthy s); [| reflexivity].
  destruct (matchBorder s) as [[[w t] c] |]; [| reflexivity].
  destruct (drawable w t c); [| reflexivity].
  destruct (getRgb c) as [rgb |]; [| reflexivity].
  destruct rectNode. reflexivity.
Qed.

(** X19. The corner-radius mapper and the shorthand border helper write
    disjoint fields: applied in either order they give the same node, and
    the mapper applied twice gives what it gives once. *)
Theorem radii_and_strokes_commute
    (parseUnits : option string -> option Length.t) (getRgb : string -> option RGB.t)
    (computedStyle : gmap string string) (rectNode : LayerNode) :
  setBorderRadii parseUnits computedStyle
    (addStrokesFromBorder getRgb computedStyle rectNode)
  = addStrokesFromBorder getRgb computedStyle
      (setBorderRadii parseUnits computedStyle rectNode) /\
  setBorderRadii parseUnits computedStyle
    (setBorderRadii parseUnits computedStyle rectNode)
  = setBorderRadii parseUnits computedStyle rectNode.
Proof.
  unfold setBorderRadii.
  destruct (parseUnits (computedStyle !! "borderTopLeftRadius")),
    (parseUnits (computedStyle !! "borderTopRightRadius")),
    (parseUnits (computedStyle !! "borderBottomRightRadius")),
    (parseUnits (computedStyle !! "borderBottomLeftRadius"));
    (split; [| destruct rectNode; reflexivity]);
    unfold addStrokesFromBorder;
    (destruct (computedStyle !! "border") as [s |]; [| reflexivity]);
    (destruct (truthy s); [| reflexivity]);
    (destruct (matchBorder s) as [[[w ty] c] |]; [| reflexivity]);
    (destruct (drawable w ty c); [| reflexivity]);
    (destruct (getRgb c) as [rgb |]; [| reflexivity]);
    destruct rectNode; reflexivity.
Qed.

(** ** The border pattern and the size test *)

(** X20. The border pattern matches exactly the strings made of a non-empty
    run of digits and dots, [px], optional white space, a non-empty word,
    optional white space, and a rest free of line terminators: a width in
    another unit, a keyword width, a sign or a leading space are never
    drawn. *)
Theorem border_pattern_accepts (s : string) :
  is_Some (matchBorder s) <-> borderShaped s.
Proof.
  split.
  - intros [[[w ty] c] Hm].
    destruct (matchBorder_groups s w ty c Hm) as (_ & Hw & Hty).
    destruct (matchBorder_sound s w ty c Hm)
      as (ws1 & ws2 & Hs & Hallw & Hall1 & Hallty & Hall2 & Hlt).
    exists w, ws1, ty, ws2, c. repeat split; try assumption.
    + now apply truthy_nonempty.
    + now apply truthy_nonempty.
  - intros Hshape. destruct (matchBorder_complete s Hshape) as (groups & ->). now eexists.
Qed.

Example border_pattern_rejects :
  matchBorder "1em solid red" = None /\
  matchBorder "thin solid red" = None /\
  matchBorder "-1px solid red" = None /\
  matchBorder " 1px solid red" = None /\
  matchBorder "1PX solid red" = None /\
  matchBorder "1px" = None.
Proof. vm_compute. repeat split; reflexivity. Qed.

Lemma trimStart_before_px (s rest : string) :
  exists s', trimStart (s ++ "px" ++ rest) = s' ++ "px" ++ rest.
Proof.
  induction s as [| c s [s' IH]].
  - exists "". reflexivity.
  - rewrite append_cons. cbn [trimStart].
    destruct (isWhiteSpace c); [now exists s' | now exists (String c s)].
Qed.

Lemma trimEnd_whiteSpace (ws : string) :
  allChars isWhiteSpace ws = true -> trimEnd ws = "".
Proof.
  induction ws as [| c ws IH]; [reflexivity |]. simpl.
  intros [Hc Hws]%andb_true_iff. now rewrite (IH Hws), Hc.
Qed.

Lemma trimEnd_after_px (s ws : string) :
  allChars isWhiteSpace ws = true -> trimEnd (s ++ "px" ++ ws) = s ++ "px".
Proof.
  intros Hws. induction s as [| c s IH].
  - rewrite !append_nil, !append_cons, append_nil. cbn [trimEnd].
    now rewrite (trimEnd_whiteSpace ws Hws).
  - rewrite (append_cons c s ("px" ++ ws)), (append_cons c s "px").
    cbn [trimEnd]. rewrite IH. destruct s; reflexivity.
Qed.

Lemma endsWith_px (s : string) : endsWith (s ++ "px") "px" = true.
Proof.
  induction s as [| c s IH]; [reflexivity |].
  rewrite append_cons. cbn [endsWith]. rewrite IH. apply orb_true_r.
Qed.

(** X21. The fixed-size test of the probe accepts every resolved size that
    ends in [px], also with white space around it. *)
Theorem pixel_size_is_fixed (s ws : string) :
  allChars isWhiteSpace ws = true ->
  hasFixedSize (Some (s ++ "px" ++ ws)) = true.
Proof.
  intros Hws. unfold hasFixedSize, trim.
  assert (truthy (s ++ "px" ++ ws) = true) as -> by (destruct s; reflexivity).
  destruct (trimStart_before_px s ws) as (s' & ->).
  rewrite (trimEnd_after_px s' ws Hws). apply endsWith_px.
Qed.

Lemma pixel_size_is_fixed_witness :
  hasFixedSize (Some " 120.5px ") = true.
Proof. apply (pixel_size_is_fixed " 120.5" " "). reflexivity. Defined.

(** Sizes that are not pixel lengths are not fixed. *)
Example hasFixedSize_rejects :
  hasFixedSize None = false /\
  hasFixedSize (Some "") = false /\
  hasFixedSize (Some "auto") = false /\
  hasFixedSize (Some "50%") = false /\
  hasFixedSize (Some "12pt") = false.
Proof. vm_compute. repeat split; reflexivity. Qed.

(** ** The inline rule (lines 132 to 153) *)




(** ** The priority of the restored declaration (lines 105 to 112) *)

(** X23. A probe that returns leaves the probed element's inline [display]
    declared with its former value and no priority, and not declared at all
    when the value was empty: a declaration marked important comes back
    without the mark. *)
Theorem probe_drops_priority (h : Host) (el : Element)
    (doc doc' : gmap (Element * string) (string * string))
    (result : ComputedStyle * bool * bool)
    (Hrun : probe h el doc = Returned result doc') :
  doc' !! (el, "display") =
    if truthy (inlineDisplay doc el) then Some (inlineDisplay doc el, "") else None.
Proof.
  rewrite probe_run in Hrun.
  destruct (hasStyle h el); [| discriminate].
  destruct (resolveStyle h el None (hiddenDoc h el doc)); [| discriminate].
  injection Hrun as _ <-. unfold restoredDoc, setStyleDisplay, finalDoc.
  destruct (truthy (inlineDisplay doc el)).
  - apply lookup_insert_eq.
  - apply lookup_delete_eq.
Qed.

Lemma probe_drops_priority_witness :
  exists result doc',
    probe liveHost 2%nat importantDoc = Returned result doc' /\
    importantDoc !! (2%nat, "display") = Some ("block", "important") /\
    doc' !! (2%nat, "display") = Some ("block", "").
Proof.
  assert (Hrun : exists result doc',
             probe liveHost 2%nat importantDoc = Returned result doc').
  { rewrite probe_run. eexists _, _. reflexivity. }
  destruct Hrun as (result & doc' & Hrun).
  exists result, doc'. split; [exact Hrun |]. split; [reflexivity |].
  etransitivity;
    [exact (probe_drops_priority liveHost 2%nat importantDoc doc' result Hrun) |].
  vm_compute. reflexivity.
Defined.
